(** * Provider resolution, adapter, health monitoring and config editing of CCS

    A shallow embedding of the router subsystem:
    - the provider registry of [src/router/providers]
      ([getProvider], [resolveSettingsProfile], [getAllProviders]);
    - the pass-through adapter of [src/router/adapters] ([AnthropicAdapter]);
    - the health monitor [src/router/providers/health.ts]
      ([checkProviderHealth] and its two live checks);
    - the configuration writer of [src/router/config] ([deleteRouterProfile],
      [saveRouterProfile], [updateRouterDefaults]).

    The first part of the file holds the definitions, translated function by
    function from the TypeScript sources; the second part holds the lemmas. *)

From Stdlib Require Import ZArith Lia Ascii.
From stdpp Require Import base option list gmap strings pretty.

Local Open Scope Z_scope.
Set Warnings "-register-all".

(* ===================================================================== *)
(** * Part I: definitions                                                 *)
(* ===================================================================== *)

(** ** The fragment of JavaScript the sources rely on *)

Module JS.

(** Run-time values.  [JSON.parse] produces every constructor but
    [Undefined]; numbers are restricted to integers (fractions and
    exponents do not occur in the properties studied here). *)
Inductive Value : Type :=
| Undefined
| Null
| Bool (b : bool)
| Num (n : Z)
| Str (s : string)
| Arr (items : list Value)
| Obj (fields : list (string * Value)).

(** ToBoolean: the test performed by [if (v)], [!v], [a || b], [c ? x : y]. *)
Definition truthy (v : Value) : bool :=
  match v with
  | Undefined | Null => false
  | Bool b => b
  | Num n => negb (n =? 0)
  | Str s => negb (String.eqb s "")
  | Arr _ | Obj _ => true
  end.

(** [a || b] *)
Definition or (a b : Value) : Value := if truthy a then a else b.

(** Own-property lookup in a record, first binding of the key. *)
Fixpoint assoc {A : Type} (k : string) (l : list (string * A)) : option A :=
  match l with
  | [] => None
  | (k', v) :: l' => if String.eqb k k' then Some v else assoc k l'
  end.

(** [v.k] for a key [k] that is not a built-in member of strings, arrays or
    boxed primitives: [None] is the TypeError raised on [null] and
    [undefined]; a missing property reads as [undefined]. *)
Definition get (v : Value) (k : string) : option Value :=
  match v with
  | Undefined | Null => None
  | Obj fields => Some (default Undefined (assoc k fields))
  | Bool _ | Num _ | Str _ | Arr _ => Some Undefined
  end.

(** ToString, as applied by template literals [`${v}`]. *)
Fixpoint ToString (v : Value) : string :=
  match v with
  | Undefined => "undefined"
  | Null => "null"
  | Bool true => "true"
  | Bool false => "false"
  | Num n => pretty n
  | Str s => s
  | Arr items =>
      String.concat ","
        (map (λ x, match x with Undefined | Null => "" | _ => ToString x end) items)
  | Obj _ => "[object Object]"
  end.

(** [String.prototype.endsWith]: the last [length t] characters of [s] are [t]. *)
Definition endsWith (s t : string) : bool :=
  let n := String.length s in
  let m := String.length t in
  (m <=? n)%nat && String.eqb (String.substring (n - m) m s) t.

(** The regular expression [/\/+$/] tried at the very start of [s]: one or
    more slashes followed by the end of input. *)
Fixpoint all_slashes (s : string) : bool :=
  match s with
  | "" => true
  | String c s' => Ascii.eqb c "/"%char && all_slashes s'
  end.

Definition slashes_to_end (s : string) : bool :=
  match s with
  | "" => false
  | String _ _ => all_slashes s
  end.

(** [s.replace(/\/+$/, '')]: the leftmost position where the expression
    matches is found by scanning from the left; the match extends to the end
    of input and is replaced by the empty string. *)
Fixpoint replace_trailing_slashes (s : string) : string :=
  if slashes_to_end s then ""
  else match s with
       | "" => ""
       | String c s' => String c (replace_trailing_slashes s')
       end.

(** [s] ends in [t]; [t] occurs in [s]. *)
Definition ends_in (s t : string) : Prop := ∃ a, s = a +:+ t.

Definition contains (s t : string) : Prop := ∃ a b, s = a +:+ t +:+ b.

(** What a [catch] clause can receive: an [Error] object (also the
    [TypeError] of a failed fetch and the [TimeoutError] of an expired
    [AbortSignal.timeout]) or any other thrown value. *)
Inductive Thrown : Type :=
| ErrorObject (name message : string)
| NonError (v : Value).

(** A computation either returns or throws. *)
Inductive Outcome (A : Type) : Type :=
| Returned (a : A)
| Threw (e : Thrown).
Arguments Returned {A}.
Arguments Threw {A}.

End JS.

(** ** Members inherited by every ordinary object

    A property read [record[name]] looks at the own properties of the
    record first and then along its prototype chain.  An object written as a
    literal or produced by a parser has [Object.prototype] at the end of that
    chain, whose members are the twelve names below; each of them reads as a
    truthy value (eleven functions, and the prototype itself under
    [__proto__]). *)

Module ObjectPrototype.

Definition OBJECT_PROTOTYPE_MEMBERS : list string :=
  ["constructor"; "hasOwnProperty"; "isPrototypeOf"; "propertyIsEnumerable";
   "toLocaleString"; "toString"; "valueOf"; "__proto__";
   "__defineGetter__"; "__defineSetter__"; "__lookupGetter__"; "__lookupSetter__"].

(** The name is one of an inherited member. *)
Definition inheritedMember (name : string) : bool :=
  existsb (String.eqb name) OBJECT_PROTOTYPE_MEMBERS.

(** The truthiness of [record[name]] on an ordinary object given by its own
    properties: an own property decides by its value, and without one the
    read finds the inherited member, if the name is one. *)
Definition truthyProperty (record : list (string * JS.Value)) (name : string) : bool :=
  match JS.assoc name record with
  | Some v => JS.truthy v
  | None => inheritedMember name
  end.

End ObjectPrototype.

(** ** The file system as the sources observe it *)

Module FS.

Inductive Entry : Type :=
| File (content : string)
| Directory.

Definition t : Type := gmap string Entry.

(** [existsSync(path)] *)
Definition existsSync (fs : t) (path : string) : bool :=
  bool_decide (is_Some (fs !! path)).

(** [readFileSync(path, 'utf-8')]: [None] stands for the exception raised
    when the path is absent (ENOENT) or names a directory (EISDIR). *)
Definition readFileSync (fs : t) (path : string) : option string :=
  match fs !! path with
  | Some (File content) => Some content
  | Some Directory | None => None
  end.

(** [writeFileSync(path, data, 'utf-8')] on a path that is not a directory. *)
Definition writeFileSync (fs : t) (path data : string) : t :=
  <[path := File data]> fs.

End FS.

(** ** Provider registry: [getProvider], [getAllProviders] *)

Module Registry.

(** [ResolvedProvider.type] *)
Inductive ProviderType : Type := cliproxy | settings | api.

#[global] Instance ProviderType_eq_dec : EqDecision ProviderType.
Proof. solve_decision. Defined.

(** [ResolvedProvider] of [./types].  [baseUrl] and [authToken] are declared
    [string] and [string | undefined]; the settings resolver fills them with
    whatever [JSON.parse] delivered, hence the fields hold run-time values. *)
Record ResolvedProvider : Type := mkResolvedProvider {
  name : string;
  type : ProviderType;
  adapter : string;
  baseUrl : JS.Value;
  authToken : JS.Value;
  headers : option (gmap string string);
}.

(** [ApiProviderConfig] of [./types]: an entry of [providers] in the router
    configuration. *)
Record ApiProviderConfig : Type := mkApiProviderConfig {
  cfg_adapter : string;
  base_url : string;
  auth_env : string;
  cfg_headers : option (gmap string string);
}.

(** An entry of [profiles] in the unified configuration. *)
Record ProfileConfig : Type := mkProfileConfig {
  profile_settings : string;
}.

(** What [loadUnifiedConfig()] returns; records keep their key order. *)
Record UnifiedConfig : Type := mkUnifiedConfig {
  profiles : option (list (string * ProfileConfig));
}.

(** What [loadRouterConfig()] returns. *)
Record RouterConfig : Type := mkRouterConfig {
  providers : option (list (string * ApiProviderConfig));
}.

(** Everything the registry reads from its surroundings.  [expandPath],
    [loadUnifiedConfig], [loadRouterConfig] live in other modules of the
    repository; [JSON_parse] answers [None] where [JSON.parse] raises a
    SyntaxError. *)
Record Env : Type := mkEnv {
  loadUnifiedConfig : option UnifiedConfig;
  loadRouterConfig : option RouterConfig;
  expandPath : string → string;
  fs : FS.t;
  JSON_parse : string → option JS.Value;
  process_env : gmap string string;
}.

Definition CLIPROXY_PROVIDER_LIST : list string :=
  ["agy"; "gemini"; "codex"; "qwen"; "iflow"; "kiro"; "ghcp"].

Definition CLIPROXY_BASE_URL : string := "http://127.0.0.1:8317".

(** [isCLIProxyProvider] *)
Definition isCLIProxyProvider (name : string) : bool :=
  existsb (String.eqb name) CLIPROXY_PROVIDER_LIST.

(** [resolveCLIProxyProvider] *)
Definition resolveCLIProxyProvider (name : string) : ResolvedProvider :=
  {| name := name;
     type := cliproxy;
     adapter := "anthropic";
     baseUrl := JS.Str (CLIPROXY_BASE_URL +:+ "/api/provider/" +:+ name +:+ "/v1");
     authToken := JS.Undefined;
     headers := None |}.

(** [unifiedConfig?.profiles?.[name]] at the own keys of the record.  For a
    name of [ObjectPrototype.OBJECT_PROTOTYPE_MEMBERS] that is no own key
    the code reads the inherited member instead, which this lookup does not
    show. *)
Definition lookupProfile (E : Env) (name : string) : option ProfileConfig :=
  cfg ← loadUnifiedConfig E; ps ← profiles cfg; JS.assoc name ps.

(** The body of the [try] block of [resolveSettingsProfile]; [None] when one
    of its statements throws. *)
Definition readSettings (E : Env) (name settingsPath : string)
  : option ResolvedProvider :=
  content ← FS.readFileSync (fs E) settingsPath;
  settingsJson ← JSON_parse E content;       (* const settings = JSON.parse(...) *)
  env0 ← JS.get settingsJson "env";
  let env := JS.or env0 (JS.Obj []) in
  url ← JS.get env "ANTHROPIC_BASE_URL";
  tok ← JS.get env "ANTHROPIC_AUTH_TOKEN";
  Some {| name := name;
          type := settings;
          adapter := "anthropic";
          baseUrl := JS.or url (JS.Str "https://api.anthropic.com/v1");
          authToken := tok;
          headers := None |}.

(** [resolveSettingsProfile]; [None] is the [null] result. *)
Definition resolveSettingsProfile (E : Env) (name : string)
  : option ResolvedProvider :=
  match lookupProfile E name with
  | None => None
  | Some profileConfig =>
      let settingsPath := expandPath E (profile_settings profileConfig) in
      if negb (FS.existsSync (fs E) settingsPath) then None
      else match readSettings E name settingsPath with
           | Some p => Some p
           | None => None   (* catch { return null } *)
           end
  end.

(** [resolveApiProvider] *)
Definition resolveApiProvider (E : Env) (name : string) (config : ApiProviderConfig)
  : ResolvedProvider :=
  let authToken :=
    match process_env E !! auth_env config with
    | Some v => JS.Str v
    | None => JS.Undefined
    end in
  {| name := name;
     type := api;
     adapter := cfg_adapter config;
     baseUrl := JS.Str (base_url config);
     authToken := authToken;
     headers := cfg_headers config |}.

(** [config?.providers?.[name]] at the own keys of the record; the remark
    made at [lookupProfile] on inherited members applies. *)
Definition lookupApiConfig (E : Env) (name : string) : option ApiProviderConfig :=
  cfg ← loadRouterConfig E; ps ← providers cfg; JS.assoc name ps.

(** [getProvider]; [None] is the [null] result ("not found"). *)
Definition getProvider (E : Env) (name : string) : option ResolvedProvider :=
  if isCLIProxyProvider name then Some (resolveCLIProxyProvider name)
  else
    match resolveSettingsProfile E name with
    | Some settingsProvider => Some settingsProvider
    | None =>
        match lookupApiConfig E name with
        | Some apiConfig => Some (resolveApiProvider E name apiConfig)
        | None => None
        end
    end.

(** [isSettingsProfile], for names that are not inherited members (see
    [lookupProfile]). *)
Definition isSettingsProfile (E : Env) (name : string) : bool :=
  bool_decide (is_Some (lookupProfile E name)).

(** [Object.keys(record)] *)
Definition keys {A : Type} (record : list (string * A)) : list string :=
  fst <$> record.

(** The three loops of [getAllProviders], each pushing onto [providers]. *)
Definition cliproxyProviders : list ResolvedProvider :=
  resolveCLIProxyProvider <$> CLIPROXY_PROVIDER_LIST.

Definition settingsProviders (E : Env) : list ResolvedProvider :=
  match loadUnifiedConfig E ≫= profiles with
  | Some ps => omap (resolveSettingsProfile E) (keys ps)
  | None => []
  end.

Definition apiProviders (E : Env) : list ResolvedProvider :=
  match loadRouterConfig E ≫= providers with
  | Some ps => (λ '(name, apiConfig), resolveApiProvider E name apiConfig) <$> ps
  | None => []
  end.

(** [getAllProviders] *)
Definition getAllProviders (E : Env) : list ResolvedProvider :=
  cliproxyProviders ++ settingsProviders E ++ apiProviders E.

(** Vocabulary of the specification: where the settings file of a profile
    lives, when it is missing, when it cannot be parsed, and the field found
    by following own properties along a path. *)
Definition settingsPath (E : Env) (pc : ProfileConfig) : string :=
  expandPath E (profile_settings pc).

Definition settingsMissing (E : Env) (pc : ProfileConfig) : Prop :=
  fs E !! settingsPath E pc = None.

Definition settingsUnparsable (E : Env) (pc : ProfileConfig) : Prop :=
  ∃ content, fs E !! settingsPath E pc = Some (FS.File content) ∧
             JSON_parse E content = None.

Fixpoint fieldAt (v : JS.Value) (path : list string) : option JS.Value :=
  match path with
  | [] => Some v
  | k :: rest =>
      match v with
      | JS.Obj fields => v' ← JS.assoc k fields; fieldAt v' rest
      | _ => None
      end
  end.

End Registry.

(** ** The pass-through adapter: [AnthropicAdapter] *)

Module Adapter.
Import Registry.

(** [AnthropicAdapter.getHeaders].  [Object.assign(headers, provider.headers)]
    lets the custom entries win, which is the left-biased union with the
    custom entries on the left. *)
Definition getHeaders (provider : ResolvedProvider) : gmap string string :=
  let headers : gmap string string := {[ "Content-Type" := "application/json" ]} in
  let headers :=
    if JS.truthy (authToken provider)
    then <[ "Authorization" := "Bearer " +:+ JS.ToString (authToken provider) ]> headers
    else headers in
  match Registry.headers provider with
  | Some custom => custom ∪ headers
  | None => headers
  end.

(** The headers of [getHeaders] before the custom entries are merged in. *)
Definition ownHeaders (p : ResolvedProvider) : gmap string string :=
  if JS.truthy (authToken p)
  then <[ "Authorization" := "Bearer " +:+ JS.ToString (authToken p) ]>
         {[ "Content-Type" := "application/json" ]}
  else {[ "Content-Type" := "application/json" ]}.

(** [AnthropicAdapter.getEndpoint].  [None] is the TypeError raised by
    [provider.baseUrl.replace] when [baseUrl] is not a string. *)
Definition getEndpoint (provider : ResolvedProvider) : option string :=
  match baseUrl provider with
  | JS.Str url =>
      let baseUrl := JS.replace_trailing_slashes url in
      if JS.endsWith baseUrl "/v1"
      then Some (baseUrl +:+ "/messages")
      else Some (baseUrl +:+ "/v1/messages")
  | _ => None
  end.

(** The endpoint as the specification words it: strip all trailing slashes,
    then append the request path without repeating the version prefix. *)
Fixpoint strip_trailing_slashes (s : string) : string :=
  match s with
  | "" => ""
  | String c s' =>
      match strip_trailing_slashes s' with
      | "" => if Ascii.eqb c "/"%char then "" else String c ""
      | r => String c r
      end
  end.

Definition endpoint_reference (baseUrl : string) (result : string) : Prop :=
  let stripped := strip_trailing_slashes baseUrl in
  (JS.ends_in stripped "/v1" ∧ result = stripped +:+ "/messages") ∨
  (¬ JS.ends_in stripped "/v1" ∧ result = stripped +:+ "/v1/messages").

End Adapter.

(** ** Health monitoring: [checkProviderHealth] and its two live checks *)

Module Health.
Import Registry.
Import JS (Outcome, Returned, Threw).

(** [ProviderHealthResult] of [./types]; [checkedAt] is the [Date] as
    milliseconds since the epoch ([getTime()]). *)
Record ProviderHealthResult : Type := mkProviderHealthResult {
  provider : string;
  healthy : bool;
  latency : Z;
  error : option string;
  checkedAt : Z;
}.

(** The arguments of the [fetch] call. *)
Record Request : Type := mkRequest {
  url : string;
  method : string;
  req_headers : gmap string string;
  timeout_ms : Z;
}.

(** The part of a fetch [Response] that is inspected. *)
Record Response : Type := mkResponse {
  status : Z;
  statusText : string;
}.

(** [response.ok]: the status is in the range 200-299. *)
Definition ok (r : Response) : bool := (200 <=? status r) && (status r <=? 299).

(** Result of [getAuthStatus]. *)
Record AuthStatus : Type := mkAuthStatus { authenticated : bool }.

(** Input and output performed by a check, in the order it happened, each
    with the answer received. *)
Inductive IOEvent (PortProcess : Type) : Type :=
| PortProbe (port : Z) (answer : option PortProcess)
| AuthQuery (name : string) (answer : AuthStatus)
| Fetch (req : Request) (answer : Response + JS.Thrown).
Arguments PortProbe {PortProcess}.
Arguments AuthQuery {PortProcess}.
Arguments Fetch {PortProcess}.

(** The collaborators of the module, over an arbitrary state [Ext] of the
    world outside the process: the system clock, the port inspection of
    [utils/port-utils], the token manager and the network.  A fetch either
    resolves with a response or rejects with a thrown value. *)
Class Collaborators (Ext PortProcess : Type) : Type := {
  clock : Ext → Z * Ext;
  getPortProcess : Z → Ext → option PortProcess * Ext;
  isCLIProxyProcess : PortProcess → bool;
  getAuthStatus : string → Ext → AuthStatus * Ext;
  fetch : Request → Ext → (Response + JS.Thrown) * Ext;
  CLIPROXY_DEFAULT_PORT : Z;
}.

(** The module-level variables together with the outside world. *)
Record World (Ext PortProcess : Type) : Type := mkWorld {
  ext : Ext;
  trace : list (IOEvent PortProcess);
  healthCache : gmap string ProviderHealthResult;
  cliproxyPortHealthy : option bool;
  cliproxyPortCheckedAt : option Z;
}.
Arguments mkWorld {Ext PortProcess}.
Arguments ext {Ext PortProcess}.
Arguments trace {Ext PortProcess}.
Arguments healthCache {Ext PortProcess}.
Arguments cliproxyPortHealthy {Ext PortProcess}.
Arguments cliproxyPortCheckedAt {Ext PortProcess}.

Definition CACHE_TTL : Z := 30 * 1000.

Section Monitor.
Context {Ext PortProcess : Type} `{C : Collaborators Ext PortProcess}.

(** State and exception monad of the module. *)
Definition M (A : Type) : Type := World Ext PortProcess → Outcome A * World Ext PortProcess.

Definition ret {A : Type} (a : A) : M A := λ w, (Returned a, w).

Definition bind {A B : Type} (m : M A) (k : A → M B) : M B :=
  λ w, match m w with
       | (Returned a, w') => k a w'
       | (Threw e, w') => (Threw e, w')
       end.

(** [try { body } catch (error) { handler }] *)
Definition try_catch {A : Type} (body : M A) (handler : JS.Thrown → M A) : M A :=
  λ w, match body w with
       | (Returned a, w') => (Returned a, w')
       | (Threw e, w') => handler e w'
       end.

#[local] Notation "'let*' x := m 'in' k" := (bind m (λ x, k))
  (at level 10, x name, m at level 100, k at level 200).

Definition set_ext (e : Ext) (w : World Ext PortProcess) : World Ext PortProcess :=
  mkWorld e (trace w) (healthCache w) (cliproxyPortHealthy w) (cliproxyPortCheckedAt w).

Definition log (ev : IOEvent PortProcess) (w : World Ext PortProcess) : World Ext PortProcess :=
  mkWorld (ext w) (trace w ++ [ev]) (healthCache w)
          (cliproxyPortHealthy w) (cliproxyPortCheckedAt w).

(** [Date.now()], and [new Date()] read through [getTime()]. *)
Definition Date_now : M Z :=
  λ w, let answer := clock (ext w) in (Returned answer.1, set_ext answer.2 w).

Definition new_Date : M Z := Date_now.

(** [await getPortProcess(port)] *)
Definition await_getPortProcess (port : Z) : M (option PortProcess) :=
  λ w, let answer := getPortProcess port (ext w) in
       (Returned answer.1, set_ext answer.2 (log (PortProbe port answer.1) w)).

(** [getAuthStatus(name)] *)
Definition call_getAuthStatus (name : string) : M AuthStatus :=
  λ w, let answer := getAuthStatus name (ext w) in
       (Returned answer.1, set_ext answer.2 (log (AuthQuery name answer.1) w)).

(** [await fetch(url, init)]: a rejected promise is rethrown by [await]. *)
Definition await_fetch (req : Request) : M Response :=
  λ w, let answer := fetch req (ext w) in
       let w' := set_ext answer.2 (log (Fetch req answer.1) w) in
       match answer.1 with
       | inl response => (Returned response, w')
       | inr thrown => (Threw thrown, w')
       end.

(** Reads and writes of the module-level variables. *)
Definition get_healthCache : M (gmap string ProviderHealthResult) :=
  λ w, (Returned (healthCache w), w).

Definition healthCache_set (k : string) (v : ProviderHealthResult) : M unit :=
  λ w, (Returned tt,
        mkWorld (ext w) (trace w) (<[k := v]> (healthCache w))
                (cliproxyPortHealthy w) (cliproxyPortCheckedAt w)).

Definition get_cliproxyPortHealthy : M (option bool) :=
  λ w, (Returned (cliproxyPortHealthy w), w).

Definition get_cliproxyPortCheckedAt : M (option Z) :=
  λ w, (Returned (cliproxyPortCheckedAt w), w).

Definition set_cliproxyPortHealthy (b : option bool) : M unit :=
  λ w, (Returned tt,
        mkWorld (ext w) (trace w) (healthCache w) b (cliproxyPortCheckedAt w)).

Definition set_cliproxyPortCheckedAt (d : option Z) : M unit :=
  λ w, (Returned tt,
        mkWorld (ext w) (trace w) (healthCache w) (cliproxyPortHealthy w) d).

(** The condition guarding the port probe:
    [cliproxyPortHealthy === null || !cliproxyPortCheckedAt ||
     Date.now() - cliproxyPortCheckedAt.getTime() > CACHE_TTL];
    the clock is read only when the first two disjuncts are false. *)
Definition portCacheExpired : M bool :=
  let* h := get_cliproxyPortHealthy in
  let* at_ := get_cliproxyPortCheckedAt in
  match h, at_ with
  | None, _ => ret true
  | Some _, None => ret true
  | Some _, Some checked =>
      let* now := Date_now in ret (now - checked >? CACHE_TTL)
  end.

(** [checkCLIProxyProviderHealth] *)
Definition checkCLIProxyProviderHealth (p : ResolvedProvider)
  : M ProviderHealthResult :=
  let* startTime := Date_now in
  let* expired := portCacheExpired in
  let* _ :=
    (if expired : bool then
       let* portProcess := await_getPortProcess CLIPROXY_DEFAULT_PORT in
       let* _ := set_cliproxyPortHealthy
                   (Some (match portProcess with
                          | Some proc => isCLIProxyProcess proc
                          | None => false
                          end)) in
       let* d := new_Date in
       set_cliproxyPortCheckedAt (Some d)
     else ret tt) in
  let* now := Date_now in
  let latency := now - startTime in
  let* authStatus := call_getAuthStatus (name p) in
  let* portHealthy := get_cliproxyPortHealthy in
  if negb (default false portHealthy) then
    let* d := new_Date in
    ret {| provider := name p; healthy := false; latency := latency;
           error := Some "CLIProxy not running"; checkedAt := d |}
  else if negb (authenticated authStatus) then
    let* d := new_Date in
    ret {| provider := name p; healthy := false; latency := latency;
           error := Some "Not authenticated"; checkedAt := d |}
  else
    let* d := new_Date in
    ret {| provider := name p; healthy := true; latency := latency;
           error := None; checkedAt := d |}.

(** The [headers] object literal of the health request:
    [{ Authorization: ..., ...provider.headers }]. *)
Definition healthRequestHeaders (p : ResolvedProvider) : gmap string string :=
  default ∅ (headers p) ∪
  {[ "Authorization" :=
       if JS.truthy (authToken p)
       then "Bearer " +:+ JS.ToString (authToken p)
       else "" ]}.

(** The request of the HTTP check: [fetch(endpoint, { method, headers, signal })]. *)
Definition healthRequest (p : ResolvedProvider) : Request :=
  {| url := JS.ToString (baseUrl p) +:+ "/models"; method := "GET";
     req_headers := healthRequestHeaders p; timeout_ms := 5000 |}.

(** [error instanceof Error ? error.message : 'Unknown error'] *)
Definition errorMessage (e : JS.Thrown) : string :=
  match e with
  | JS.ErrorObject _ message => message
  | JS.NonError _ => "Unknown error"
  end.

(** [checkApiProviderHealth] *)
Definition checkApiProviderHealth (p : ResolvedProvider)
  : M ProviderHealthResult :=
  let* startTime := Date_now in
  try_catch
    (let endpoint := JS.ToString (baseUrl p) +:+ "/models" in
     let* response :=
       await_fetch {| url := endpoint; method := "GET";
                      req_headers := healthRequestHeaders p;
                      timeout_ms := 5000 |} in
     let* now := Date_now in
     let latency := now - startTime in
     if ok response then
       let* d := new_Date in
       ret {| provider := name p; healthy := true; latency := latency;
              error := None; checkedAt := d |}
     else
       let* d := new_Date in
       ret {| provider := name p; healthy := false; latency := latency;
              error := Some ("HTTP " +:+ pretty (status response) +:+ ": "
                             +:+ statusText response);
              checkedAt := d |})
    (λ error,
       let* now := Date_now in
       let* d := new_Date in
       ret {| provider := name p; healthy := false; latency := now - startTime;
              error := Some (errorMessage error); checkedAt := d |}).

(** The live check selected by [provider.type === 'cliproxy']. *)
Definition liveCheck (p : ResolvedProvider) : M ProviderHealthResult :=
  if decide (type p = cliproxy)
  then checkCLIProxyProviderHealth p
  else checkApiProviderHealth p.

(** The cache test of [checkProviderHealth]:
    [cached && Date.now() - cached.checkedAt.getTime() < CACHE_TTL];
    the clock is read only when an entry exists. *)
Definition cacheLookup (p : ResolvedProvider) : M (option ProviderHealthResult) :=
  let* cache := get_healthCache in
  match cache !! name p with
  | Some cached =>
      let* now := Date_now in
      ret (if now - checkedAt cached <? CACHE_TTL then Some cached else None)
  | None => ret None
  end.

(** [checkProviderHealth] *)
Definition checkProviderHealth (p : ResolvedProvider) : M ProviderHealthResult :=
  let* hit := cacheLookup p in
  match hit with
  | Some cached => ret cached
  | None =>
      let* result := liveCheck p in
      let* _ := healthCache_set (name p) result in
      ret result
  end.

(** [invalidateHealthCache] *)
Definition invalidateHealthCache (providerName : option string) : M unit :=
  λ w, match providerName with
       | Some n =>
           if negb (String.eqb n "") then
             (Returned tt,
              mkWorld (ext w) (trace w) (delete n (healthCache w))
                      (cliproxyPortHealthy w) (cliproxyPortCheckedAt w))
           else (Returned tt, mkWorld (ext w) (trace w) ∅ None None)
       | None => (Returned tt, mkWorld (ext w) (trace w) ∅ None None)
       end.

End Monitor.

End Health.

(** ** Configuration writer: [deleteRouterProfile] *)

Module ConfigWriter.
Import JS (Outcome, Returned, Threw).

(** The comment-preserving document library behind [parseDocument] of
    [./loader]: parsing, reading at a path, deleting at a path and printing.

    What [doc.getIn(path)] returns is an object of the library, a [Node];
    the cast [as Record<string, unknown> | undefined] of the source is
    erased at run time and does not turn it into a record.  [None] stands
    for [undefined] and [null], the two values on which [?.] stops.  The
    writer looks at such an object through one property read only,
    [profiles?.[name]], which finds the own properties of the object and the
    members it inherits; [truthyMember node name] is the truthiness of
    [node[name]].  Deleting and printing may throw. *)
Class YamlDocument (Doc Node : Type) : Type := {
  parseDocument : string → Doc;
  getIn : Doc → list string → option Node;
  truthyMember : Node → string → bool;
  deleteIn : Doc → list string → Outcome Doc;
  toString : Doc → Outcome string;
}.

(** The file system together with the list of writes performed on it. *)
Record Disk : Type := mkDisk {
  files : FS.t;
  writes : list (string * string);
}.


Section Writer.
Context {Doc Node : Type} `{Y : YamlDocument Doc Node}.

(** [getConfigPath()] of [./loader]. *)
Variable configPath : string.

(** [writeFileSync(configPath, data, 'utf-8')] *)
Definition write (path data : string) (d : Disk) : Disk :=
  {| files := FS.writeFileSync (files d) path data;
     writes := writes d ++ [(path, data)] |}.

(** The truthiness of [profiles?.[name]]. *)
Definition profileMember (profiles : option Node) (name : string) : bool :=
  match profiles with
  | Some node => truthyMember node name
  | None => false
  end.

(** [deleteRouterProfile] *)
Definition deleteRouterProfile (name : string) (d : Disk) : Outcome bool * Disk :=
  if negb (FS.existsSync (files d) configPath) then (Returned false, d)
  else
    match FS.readFileSync (files d) configPath with
    | None => (Threw (JS.ErrorObject "Error" "EISDIR"), d)
    | Some text =>
        let doc := parseDocument text in
        let profiles := getIn doc ["router"; "profiles"] in
        if negb (profileMember profiles name) then (Returned false, d)
        else
          match deleteIn doc ["router"; "profiles"; name] with
          | Threw e => (Threw e, d)
          | Returned doc =>
              match toString doc with
              | Threw e => (Threw e, d)
              | Returned data => (Returned true, write configPath data d)
              end
          end
    end.

End Writer.

End ConfigWriter.

(** ** A reference reader and printer for JSON texts

    [JSON.parse] and [JSON.stringify] on the fragment of JSON without escape
    sequences, fractions and exponents; it is used to run the registry on
    concrete settings files.  Texts outside the fragment are answered [None]. *)

Module Json.
Import JS.

Definition dquote : ascii := "034"%char.

Definition is_ws (c : ascii) : bool :=
  Ascii.eqb c " "%char || Ascii.eqb c "009"%char ||
  Ascii.eqb c "010"%char || Ascii.eqb c "013"%char.

Fixpoint skip_ws (s : string) : string :=
  match s with
  | String c r => if is_ws c then skip_ws r else s
  | "" => ""
  end.

(** The characters of a string literal after its opening quote. *)
Fixpoint string_body (s : string) : option (string * string) :=
  match s with
  | "" => None
  | String c r =>
      if Ascii.eqb c dquote then Some ("", r)
      else if Ascii.eqb c "\"%char || (nat_of_ascii c <? 32)%nat then None
      else '(t, r') ← string_body r; Some (String c t, r')
  end.

Definition digit (c : ascii) : option Z :=
  let n := nat_of_ascii c in
  if (48 <=? n)%nat && (n <=? 57)%nat then Some (Z.of_nat (n - 48)) else None.

Fixpoint digits (s : string) (acc : Z) : Z * string :=
  match s with
  | String c r =>
      match digit c with
      | Some d => digits r (10 * acc + d)
      | None => (acc, s)
      end
  | "" => (acc, "")
  end.

(** An integer literal: [0] or a digit sequence without leading zero. *)
Definition natural (s : string) : option (Z * string) :=
  match s with
  | String c r =>
      match digit c with
      | Some 0 => match r with
                  | String c' _ => match digit c' with
                                   | Some _ => None
                                   | None => Some (0, r)
                                   end
                  | "" => Some (0, r)
                  end
      | Some d => Some (digits r d)
      | None => None
      end
  | "" => None
  end.

Definition integer (s : string) : option (Z * string) :=
  '(n, r) ← (match s with
             | String "-"%char r => '(n, r') ← natural r; Some (- n, r')
             | _ => natural s
             end);
  match r with
  | String c _ =>
      if Ascii.eqb c "."%char || Ascii.eqb c "e"%char || Ascii.eqb c "E"%char
      then None else Some (n, r)
  | "" => Some (n, r)
  end.

(** Property definition on an object under construction: a repeated key
    keeps its place and takes the new value. *)
Fixpoint set_field (k : string) (v : Value) (fields : list (string * Value))
  : list (string * Value) :=
  match fields with
  | [] => [(k, v)]
  | (k', v') :: rest =>
      if String.eqb k k' then (k, v) :: rest else (k', v') :: set_field k v rest
  end.

Definition keyword (kw : string) (v : Value) (s : string) : option (Value * string) :=
  if String.prefix kw s
  then Some (v, String.substring (String.length kw) (String.length s - String.length kw) s)
  else None.

Fixpoint value (fuel : nat) (s : string) : option (Value * string) :=
  match fuel with
  | O => None
  | S fuel =>
      match skip_ws s with
      | String "{"%char r =>
          match skip_ws r with
          | String "}"%char r' => Some (Obj [], r')
          | _ => members fuel r []
          end
      | String "["%char r =>
          match skip_ws r with
          | String "]"%char r' => Some (Arr [], r')
          | _ => elements fuel r []
          end
      | String "034"%char r => '(t, r') ← string_body r; Some (Str t, r')
      | String "t"%char _ as s' => keyword "true" (Bool true) s'
      | String "f"%char _ as s' => keyword "false" (Bool false) s'
      | String "n"%char _ as s' => keyword "null" Null s'
      | s' => '(n, r) ← integer s'; Some (Num n, r)
      end
  end
with members (fuel : nat) (s : string) (acc : list (string * Value))
  : option (Value * string) :=
  match fuel with
  | O => None
  | S fuel =>
      match skip_ws s with
      | String "034"%char r =>
          '(k, r1) ← string_body r;
          match skip_ws r1 with
          | String ":"%char r2 =>
              '(v, r3) ← value fuel r2;
              match skip_ws r3 with
              | String ","%char r4 => members fuel r4 (set_field k v acc)
              | String "}"%char r4 => Some (Obj (set_field k v acc), r4)
              | _ => None
              end
          | _ => None
          end
      | _ => None
      end
  end
with elements (fuel : nat) (s : string) (acc : list Value)
  : option (Value * string) :=
  match fuel with
  | O => None
  | S fuel =>
      '(v, r) ← value fuel s;
      match skip_ws r with
      | String ","%char r' => elements fuel r' (acc ++ [v])
      | String "]"%char r' => Some (Arr (acc ++ [v]), r')
      | _ => None
      end
  end.

(** [JSON.parse(text)]; [None] is the SyntaxError. *)
Definition parse (text : string) : option Value :=
  '(v, r) ← value (S (String.length text)) text;
  match skip_ws r with
  | "" => Some v
  | _ => None
  end.

(** [JSON.stringify(v)] for values without [undefined]. *)
Fixpoint stringify (v : Value) : string :=
  match v with
  | Undefined => "undefined"
  | Null => "null"
  | Bool true => "true"
  | Bool false => "false"
  | Num n => pretty n
  | Str s => String dquote s +:+ String dquote ""
  | Arr items => "[" +:+ String.concat "," (map stringify items) +:+ "]"
  | Obj fields =>
      "{" +:+ String.concat ","
                (map (λ kv, String dquote (fst kv) +:+ String dquote ":" +:+ stringify (snd kv))
                     fields) +:+ "}"
  end.

End Json.

(** ** Concrete configurations on which the definitions are run *)

Module Examples.
Import JS Registry.

(** [expandPath]: a leading tilde stands for the home directory. *)
Definition expandHome (path : string) : string :=
  match path with
  | String "~"%char rest => "/home/dev" +:+ rest
  | _ => path
  end.

Definition glmSettings : Value :=
  Obj [("env", Obj [("ANTHROPIC_BASE_URL", Str "https://api.z.ai/api/anthropic");
                    ("ANTHROPIC_AUTH_TOKEN", Str "tok123")])].

Definition kimiSettings : Value :=
  Obj [("env", Obj [("ANTHROPIC_AUTH_TOKEN", Str "k-42")])].

Definition glmProfile : ProfileConfig :=
  {| profile_settings := "~/.ccs/glm.settings.json" |}.

Definition kimiProfile : ProfileConfig :=
  {| profile_settings := "~/.ccs/kimi.settings.json" |}.

Definition glmApi : ApiProviderConfig :=
  {| cfg_adapter := "openai";
     base_url := "https://open.bigmodel.cn/api/paas/v4";
     auth_env := "GLM_API_KEY";
     cfg_headers := None |}.

(** Two credential profiles with their settings files in place. *)
Definition profilesEnv : Env :=
  {| loadUnifiedConfig :=
       Some {| profiles := Some [("glm", glmProfile); ("kimi", kimiProfile)] |};
     loadRouterConfig := None;
     expandPath := expandHome;
     fs := {[ "/home/dev/.ccs/glm.settings.json" := FS.File (Json.stringify glmSettings);
              "/home/dev/.ccs/kimi.settings.json" := FS.File (Json.stringify kimiSettings) ]};
     JSON_parse := Json.parse;
     process_env := ∅ |}.

(** The name [glm] is both a credential profile and a remote API provider,
    and the settings file of the profile does not exist. *)
Definition collisionEnv : Env :=
  {| loadUnifiedConfig := Some {| profiles := Some [("glm", glmProfile)] |};
     loadRouterConfig := Some {| providers := Some [("glm", glmApi)] |};
     expandPath := expandHome;
     fs := ∅;
     JSON_parse := Json.parse;
     process_env := {[ "GLM_API_KEY" := "sk-1" ]} |}.

(** The settings file of [kimi] exists but holds a truncated JSON text. *)
Definition truncatedEnv : Env :=
  {| loadUnifiedConfig :=
       Some {| profiles := Some [("glm", glmProfile); ("kimi", kimiProfile)] |};
     loadRouterConfig := None;
     expandPath := expandHome;
     fs := {[ "/home/dev/.ccs/glm.settings.json" := FS.File (Json.stringify glmSettings);
              "/home/dev/.ccs/kimi.settings.json" := FS.File "{" ]};
     JSON_parse := Json.parse;
     process_env := ∅ |}.

(** Descriptors handed to the adapter and to the health monitor. *)
Definition agy : ResolvedProvider := resolveCLIProxyProvider "agy".

Definition emptyToken : ResolvedProvider :=
  {| name := "local"; type := api; adapter := "anthropic";
     baseUrl := Str "http://localhost:4000/v1/"; authToken := Str "";
     headers := None |}.

Definition withToken : ResolvedProvider :=
  {| name := "glm"; type := settings; adapter := "anthropic";
     baseUrl := Str "https://api.z.ai/api/anthropic"; authToken := Str "tok123";
     headers := None |}.

(** A state of the outside world: the time, the process listening on the
    multiplexer port, the login state and the answer of the upstream. *)
Record Outside : Type := mkOutside {
  now : Z;
  listening : option string;
  loggedIn : bool;
  upstream : Health.Response + Thrown;
  roundTrip : Z;
}.

Definition elapse (ms : Z) (o : Outside) : Outside :=
  mkOutside (now o + ms) (listening o) (loggedIn o) (upstream o) (roundTrip o).

#[global] Instance scripted : Health.Collaborators Outside string :=
  {| Health.clock o := (now o, o);
     Health.getPortProcess _ o := (listening o, elapse 3 o);
     Health.isCLIProxyProcess proc := String.eqb proc "cli-proxy-api";
     Health.getAuthStatus _ o := (Health.mkAuthStatus (loggedIn o), o);
     Health.fetch _ o := (upstream o, elapse (roundTrip o) o);
     Health.CLIPROXY_DEFAULT_PORT := 8317 |}.

Definition freshWorld (o : Outside) : Health.World Outside string :=
  Health.mkWorld o [] ∅ None None.

(** Nothing listens on the port; the user is logged in. *)
Definition proxyDown : Outside :=
  mkOutside 1000000 None true (inl (Health.mkResponse 200 "OK")) 40.

(** The multiplexer listens on the port; the user is not logged in. *)
Definition loggedOut : Outside :=
  mkOutside 1000000 (Some "cli-proxy-api") false (inl (Health.mkResponse 200 "OK")) 40.

(** The upstream answers 500 after 120 ms. *)
Definition upstreamFailing : Outside :=
  mkOutside 1000000 (Some "cli-proxy-api") true
            (inl (Health.mkResponse 500 "Internal Server Error")) 120.

(** A world whose cache holds a verdict for [glm] taken at time [at_]. *)
Definition cachedWorld (o : Outside) (at_ : Z) : Health.World Outside string :=
  Health.mkWorld o []
    {[ "glm" := Health.mkProviderHealthResult "glm" true 35 None at_ ]} None None.

(** JSON texts read as YAML documents (every JSON text is a YAML text), by
    a stand-in library whose nodes are ordinary objects given by their own
    properties. *)
Fixpoint recordAt (v : Value) (path : list string) : option (list (string * Value)) :=
  match path, v with
  | [], Obj fields => Some fields
  | k :: rest, Obj fields => v' ← assoc k fields; recordAt v' rest
  | _, _ => None
  end.

Fixpoint removeKey (k : string) (fields : list (string * Value)) : list (string * Value) :=
  match fields with
  | [] => []
  | (k', v) :: rest => if String.eqb k k' then rest else (k', v) :: removeKey k rest
  end.

Fixpoint alterKey (k : string) (f : Value → Value) (fields : list (string * Value))
  : list (string * Value) :=
  match fields with
  | [] => []
  | (k', v) :: rest =>
      if String.eqb k k' then (k', f v) :: rest else (k', v) :: alterKey k f rest
  end.

Fixpoint removeAt (path : list string) (v : Value) : Value :=
  match path, v with
  | [k], Obj fields => Obj (removeKey k fields)
  | k :: rest, Obj fields => Obj (alterKey k (removeAt rest) fields)
  | _, _ => v
  end.

#[global] Instance jsonDocument
  : ConfigWriter.YamlDocument Value (list (string * Value)) :=
  {| ConfigWriter.parseDocument text := default Null (Json.parse text);
     ConfigWriter.getIn := recordAt;
     ConfigWriter.truthyMember := ObjectPrototype.truthyProperty;
     ConfigWriter.deleteIn doc path := Returned (removeAt path doc);
     ConfigWriter.toString doc := Returned (Json.stringify doc) |}.

Definition configYaml : Value :=
  Obj [("version", Num 2);
       ("router", Obj [("profiles", Obj [("fast", Obj [("opus", Str "agy")])])])].

Definition configDisk : ConfigWriter.Disk :=
  {| ConfigWriter.files := {[ "/home/dev/.ccs/config.yaml" := FS.File (Json.stringify configYaml) ]};
     ConfigWriter.writes := [] |}.

Definition emptyDisk : ConfigWriter.Disk :=
  {| ConfigWriter.files := ∅; ConfigWriter.writes := [] |}.

End Examples.

(** ** Configurations at the edges of the registry *)

Module EdgeExamples.
Import JS Registry Examples.

(** A credential profile named after the built-in identifier [agy]; its
    settings file holds the object of the [glm] scenario. *)
Definition builtinNameEnv : Env :=
  {| loadUnifiedConfig := Some {| profiles := Some [("agy", glmProfile)] |};
     loadRouterConfig := None;
     expandPath := expandHome;
     fs := {[ "/home/dev/.ccs/glm.settings.json" := FS.File (Json.stringify glmSettings) ]};
     JSON_parse := Json.parse;
     process_env := ∅ |}.

(** The settings file of [kimi] holds the JSON text [null]. *)
Definition nullSettingsEnv : Env :=
  {| loadUnifiedConfig := Some {| profiles := Some [("kimi", kimiProfile)] |};
     loadRouterConfig := None;
     expandPath := expandHome;
     fs := {[ "/home/dev/.ccs/kimi.settings.json" := FS.File "null" ]};
     JSON_parse := Json.parse;
     process_env := ∅ |}.

End EdgeExamples.

(** ** Further functions of the registry, the adapter and the writer *)

Module Listing.
Import Registry.

(** The result of [listProviders]: the names of the three sources. *)
Record ProviderNames : Type := mkProviderNames {
  list_cliproxy : list string;
  list_settings : list string;
  list_api : list string;
}.

(** [listProviders] *)
Definition listProviders (E : Env) : ProviderNames :=
  {| list_cliproxy := CLIPROXY_PROVIDER_LIST;
     list_settings := match loadUnifiedConfig E ≫= profiles with
                      | Some ps => keys ps
                      | None => []
                      end;
     list_api := match loadRouterConfig E ≫= providers with
                 | Some ps => keys ps
                 | None => []
                 end |}.

End Listing.

Module Transform.
Import JS Registry.

(** [AnthropicAdapter.transformRequest]: [{ ...req, model: targetModel }] on
    a request given by its fields; the provider is not looked at. *)
Definition transformRequest (req : list (string * Value)) (targetModel : string)
  (_provider : ResolvedProvider) : list (string * Value) :=
  Json.set_field "model" (Str targetModel) req.

(** [AnthropicAdapter.transformResponse] and [transformStreamChunk]. *)
Definition transformResponse (res : Value) : Value := res.

Definition transformStreamChunk (chunk : Value) : Value := chunk.

End Transform.

Module ConfigEditor.
Import JS ConfigWriter.

(** What [doc.get(key)] hands back: nothing, null, or an object of the
    library. *)
Inductive Lookup (Node : Type) : Type :=
| Missing
| NullValue
| Found (node : Node).
Arguments Missing {Node}.
Arguments NullValue {Node}.
Arguments Found {Node}.

(** What the writer passes to [doc.setIn]: a value written out in the
    source, or the object literal [{ ...existingDefaults, ...defaults }],
    whose first part is what [doc.getIn] returned ([None] where [??]
    replaced it by the empty object). *)
Inductive Argument (Node : Type) : Type :=
| Plain (v : Value)
| Spread (existingDefaults : option Node) (defaults : list (string * Value)).
Arguments Plain {Node}.
Arguments Spread {Node}.

(** The editing side of the document library of [./loader]: [doc.has(key)],
    [doc.get(key)], [doc.set(key, value)] and [doc.setIn(path, value)]; the
    last two may throw. *)
Class YamlEditor (Doc Node : Type) `{YamlDocument Doc Node} : Type := {
  has : Doc → string → bool;
  get : Doc → string → Lookup Node;
  set : Doc → string → Value → Outcome Doc;
  setIn : Doc → list string → Argument Node → Outcome Doc;
}.

(** Sequencing of statements that may throw. *)
Definition andThen {A B : Type} (m : Outcome A) (k : A → Outcome B) : Outcome B :=
  match m with
  | Returned a => k a
  | Threw e => Threw e
  end.

Section Editor.
Context {Doc Node : Type} `{Ed : YamlEditor Doc Node}.

(** [getConfigPath()] of [./loader]. *)
Variable configPath : string.

(** [existsSync(configPath) ? parseDocument(readFileSync(configPath, 'utf-8'))
                            : parseDocument('')] *)
Definition openDocument (d : Disk) : Outcome Doc :=
  if FS.existsSync (files d) configPath then
    match FS.readFileSync (files d) configPath with
    | Some text => Returned (parseDocument text)
    | None => Threw (ErrorObject "Error" "EISDIR")
    end
  else Returned (parseDocument "").

(** [writeFileSync(configPath, doc.toString(), 'utf-8')] *)
Definition print (doc : Doc) (d : Disk) : Outcome unit * Disk :=
  match toString doc with
  | Threw e => (Threw e, d)
  | Returned data => (Returned tt, write configPath data d)
  end.

(** The edits of [saveRouterProfile] up to the write: the [router] section
    is ensured, then [router.profiles] is read, which throws a TypeError
    when [doc.get('router')] is null or undefined, then the [profiles]
    section is ensured and the profile is set. *)
Definition withProfile (doc : Doc) (name : string) (profile : Value) : Outcome Doc :=
  andThen (if negb (has doc "router")
           then set doc "router" (Obj [("profiles", Obj [])])
           else Returned doc) (λ doc,
  andThen (match get doc "router" with
           | Missing =>
               Threw (ErrorObject "TypeError"
                        "Cannot read properties of undefined (reading 'profiles')")
           | NullValue =>
               Threw (ErrorObject "TypeError"
                        "Cannot read properties of null (reading 'profiles')")
           | Found router =>
               if negb (truthyMember router "profiles")
               then setIn doc ["router"; "profiles"] (Plain (Obj []))
               else Returned doc
           end) (λ doc,
  setIn doc ["router"; "profiles"; name] (Plain profile))).

(** [saveRouterProfile] *)
Definition saveRouterProfile (name : string) (profile : Value) (d : Disk)
  : Outcome unit * Disk :=
  match andThen (openDocument d) (λ doc, withProfile doc name profile) with
  | Threw e => (Threw e, d)
  | Returned doc => print doc d
  end.

(** The edits of [updateRouterDefaults] up to the write. *)
Definition withDefaults (doc : Doc) (defaults : list (string * Value)) : Outcome Doc :=
  andThen (if negb (has doc "router")
           then set doc "router" (Obj [])
           else Returned doc) (λ doc,
  let existingDefaults := getIn doc ["router"; "defaults"] in
  setIn doc ["router"; "defaults"] (Spread existingDefaults defaults)).

(** [updateRouterDefaults] *)
Definition updateRouterDefaults (defaults : list (string * Value)) (d : Disk)
  : Outcome unit * Disk :=
  match andThen (openDocument d) (λ doc, withDefaults doc defaults) with
  | Threw e => (Threw e, d)
  | Returned doc => print doc d
  end.

End Editor.

(** What a call of the writer may do to the disk [d]: nothing outside the
    configuration path, at most one write, which goes to that path; it
    returns [ok] exactly when the write took place; when it throws the disk
    is as before; and on a directory it throws [EISDIR]. *)
Definition staysOnFile {A : Type} (configPath : string) (d : Disk) (ok : A)
  (run : Outcome A * Disk) : Prop :=
  (∀ path, path ≠ configPath → files run.2 !! path = files d !! path) ∧
  (writes run.2 = writes d ∨
   ∃ data, writes run.2 = writes d ++ [(configPath, data)] ∧
           files run.2 !! configPath = Some (FS.File data)) ∧
  (run.1 = Returned ok ↔ writes run.2 ≠ writes d) ∧
  (∀ e, run.1 = Threw e → run.2 = d) ∧
  (files d !! configPath = Some FS.Directory →
   run = (Threw (ErrorObject "Error" "EISDIR"), d)).

End ConfigEditor.

Module HealthInvariant.
Import Registry Health.

(** A cache in which every record sits under the name of its provider and
    carries an error message exactly when it is unhealthy. *)
Definition recordWellFormed (n : string) (r : ProviderHealthResult) : Prop :=
  provider r = n ∧ (healthy r = false ↔ is_Some (error r)).

Definition cacheWellFormed (cache : gmap string ProviderHealthResult) : Prop :=
  ∀ n r, cache !! n = Some r → recordWellFormed n r.

(** The events of a trace that are fetches, port probes, auth queries. *)
Definition isFetch {P : Type} (ev : IOEvent P) : bool :=
  match ev with Fetch _ _ => true | _ => false end.

Definition isPortProbe {P : Type} (ev : IOEvent P) : bool :=
  match ev with PortProbe _ _ => true | _ => false end.

Definition isAuthQuery {P : Type} (ev : IOEvent P) : bool :=
  match ev with AuthQuery _ _ => true | _ => false end.

End HealthInvariant.

(* ===================================================================== *)
(** * Part II: properties                                                 *)
(* ===================================================================== *)

(** ** File system *)

Module FSFacts.

Lemma existsSync_true (files : FS.t) (path : string) (e : FS.Entry) :
  files !! path = Some e → FS.existsSync files path = true.
Proof. intros H. unfold FS.existsSync. apply bool_decide_eq_true. eauto. Qed.

Lemma existsSync_false (files : FS.t) (path : string) :
  files !! path = None → FS.existsSync files path = false.
Proof.
  intros H. unfold FS.existsSync. apply bool_decide_eq_false.
  rewrite H. intros [? ?]. discriminate.
Qed.

End FSFacts.

(** ** Provider registry *)

Module RegistryFacts.
Import JS Registry FSFacts.

Lemma resolveSettingsProfile_unusable (E : Env) (n : string) (pc : ProfileConfig) :
  lookupProfile E n = Some pc →
  settingsMissing E pc ∨ settingsUnparsable E pc →
  resolveSettingsProfile E n = None.
Proof.
  intros Hpc Hbad. unfold resolveSettingsProfile. rewrite Hpc.
  fold (settingsPath E pc).
  destruct Hbad as [Hmiss | (content & Hfile & Hparse)].
  - unfold settingsMissing in Hmiss. by rewrite (existsSync_false _ _ Hmiss).
  - rewrite (existsSync_true _ _ _ Hfile). simpl.
    unfold readSettings, FS.readFileSync. rewrite Hfile. simpl.
    by rewrite Hparse.
Qed.

(** C1, as the code has it: when the settings file of a credential profile
    is missing or unparsable, [getProvider] goes on to the remote-API map.
    It answers not-found only if the name is no key of that map; otherwise it
    returns the remote-API descriptor of that name. *)
Theorem getProvider_unusable_settings_falls_through
  (E : Env) (n : string) (pc : ProfileConfig) :
  isCLIProxyProvider n = false →
  lookupProfile E n = Some pc →
  settingsMissing E pc ∨ settingsUnparsable E pc →
  getProvider E n = resolveApiProvider E n <$> lookupApiConfig E n ∧
  (lookupApiConfig E n = None → getProvider E n = None) ∧
  (∀ apiConfig, lookupApiConfig E n = Some apiConfig →
     ∃ p, getProvider E n = Some p ∧ type p = api ∧
          baseUrl p = Str (base_url apiConfig)).
Proof.
  intros Hbuiltin Hpc Hbad.
  assert (getProvider E n = resolveApiProvider E n <$> lookupApiConfig E n) as Heq.
  { unfold getProvider. rewrite Hbuiltin.
    rewrite (resolveSettingsProfile_unusable E n pc Hpc Hbad).
    by destruct (lookupApiConfig E n). }
  split; [exact Heq|]. split.
  - intros Hnone. by rewrite Heq, Hnone.
  - intros apiConfig Hsome. rewrite Heq, Hsome. simpl. eauto.
Qed.

(** The statement above at the colliding name [glm] of [collisionEnv]. *)
Lemma getProvider_unusable_settings_falls_through_witness :
  getProvider Examples.collisionEnv "glm"
  = resolveApiProvider Examples.collisionEnv "glm"
      <$> lookupApiConfig Examples.collisionEnv "glm".
Proof.
  apply (getProvider_unusable_settings_falls_through
           Examples.collisionEnv "glm" Examples.glmProfile).
  - reflexivity.
  - reflexivity.
  - left. reflexivity.
Defined.

(** C1 as stated fails: [glm] is no built-in identifier, it is a key of the
    credential-profile map, its settings file is missing, and still
    [getProvider] returns a descriptor, of type [api]. *)
Lemma getProvider_not_found_counterexample :
  isCLIProxyProvider "glm" = false ∧
  lookupProfile Examples.collisionEnv "glm" = Some Examples.glmProfile ∧
  settingsMissing Examples.collisionEnv Examples.glmProfile ∧
  getProvider Examples.collisionEnv "glm" ≠ None ∧
  type <$> getProvider Examples.collisionEnv "glm" = Some api.
Proof. repeat split; try reflexivity. discriminate. Qed.

Lemma get_or_empty (v : Value) (k : string) :
  ∃ r, JS.get (JS.or v (Obj [])) k = Some r.
Proof. unfold JS.or. destruct v as [| |[]| | | |]; simpl; try case_match; eauto. Qed.

Lemma get_non_nullish (v : Value) (k : string) :
  v ≠ Null → v ≠ Undefined → ∃ r, JS.get v k = Some r.
Proof. destruct v; simpl; intros; eauto; congruence. Qed.

Lemma get_Some_non_nullish (v r : Value) (k : string) :
  JS.get v k = Some r → v ≠ Null ∧ v ≠ Undefined.
Proof. destruct v; simpl; intros; split; congruence. Qed.

(** What the field lookups of the resolver see when the path
    [env.ANTHROPIC_BASE_URL] leads nowhere. *)
Lemma base_url_absent (v env0 url : Value) :
  fieldAt v ["env"; "ANTHROPIC_BASE_URL"] = None →
  JS.get v "env" = Some env0 →
  JS.get (JS.or env0 (Obj [])) "ANTHROPIC_BASE_URL" = Some url →
  url = Undefined.
Proof.
  intros Habs Henv Hurl.
  destruct v; simpl in *; simplify_eq;
    try (by vm_compute in Hurl; simplify_eq).
  destruct (assoc "env" fields) as [e|] eqn:He; simpl in *;
    [|by vm_compute in Hurl; simplify_eq].
  destruct e as [| |[]| | | |]; simpl in *;
    try (by vm_compute in Hurl; simplify_eq).
  - unfold JS.or in Hurl. simpl in Hurl. by case_match; simpl in *; simplify_eq.
  - unfold JS.or in Hurl. simpl in Hurl. by case_match; simpl in *; simplify_eq.
  - unfold JS.or in Hurl. simpl in Hurl.
    destruct (assoc "ANTHROPIC_BASE_URL" fields0); simpl in *; by simplify_eq.
Qed.

(** What the settings resolver makes of a settings file that parses: the
    [glm] object of the scenario gives its base URL and token, and any value
    other than null in which [env.ANTHROPIC_BASE_URL] is absent gives the
    default public base URL. *)
Lemma resolveSettingsProfile_reads_env
  (E : Env) (n : string) (pc : ProfileConfig) (content : string) (v : Value) :
  lookupProfile E n = Some pc →
  fs E !! settingsPath E pc = Some (FS.File content) →
  JSON_parse E content = Some v →
  (v = Obj [("env", Obj [("ANTHROPIC_BASE_URL", Str "https://api.z.ai/api/anthropic");
                         ("ANTHROPIC_AUTH_TOKEN", Str "tok123")])] →
   resolveSettingsProfile E n =
     Some {| name := n; type := settings; adapter := "anthropic";
             baseUrl := Str "https://api.z.ai/api/anthropic";
             authToken := Str "tok123"; headers := None |}) ∧
  (v ≠ Null → v ≠ Undefined →
   fieldAt v ["env"; "ANTHROPIC_BASE_URL"] = None →
   ∃ p, resolveSettingsProfile E n = Some p ∧
        name p = n ∧ type p = settings ∧
        baseUrl p = Str "https://api.anthropic.com/v1").
Proof.
  intros Hpc Hfile Hparse.
  assert (resolveSettingsProfile E n = readSettings E n (settingsPath E pc)) as Hres.
  { unfold resolveSettingsProfile. rewrite Hpc. fold (settingsPath E pc).
    rewrite (existsSync_true _ _ _ Hfile). simpl.
    by destruct (readSettings E n (settingsPath E pc)). }
  rewrite Hres. unfold readSettings, FS.readFileSync. rewrite Hfile. simpl.
  rewrite Hparse. simpl. split.
  - intros ->. reflexivity.
  - intros Hnull Hundef Habs.
    destruct (get_non_nullish v "env" Hnull Hundef) as [env0 Henv].
    rewrite Henv. simpl.
    destruct (get_or_empty env0 "ANTHROPIC_BASE_URL") as [url Hurl].
    destruct (get_or_empty env0 "ANTHROPIC_AUTH_TOKEN") as [tok Htok].
    rewrite Hurl, Htok. simpl.
    rewrite (base_url_absent v env0 url Habs Henv Hurl).
    eexists. split; [reflexivity|]. done.
Qed.

(** C8, as the code has it: for a credential-profile name that is not a
    built-in multiplexer identifier, [getProvider] on a settings file that
    parses to the [glm] object of the scenario returns the descriptor with
    that base URL and that token; and on a settings file that parses to any
    value other than null in which [env.ANTHROPIC_BASE_URL] is absent it
    returns a settings descriptor whose base URL is the default public one. *)
Theorem getProvider_reads_settings_env
  (E : Env) (n : string) (pc : ProfileConfig) (content : string) (v : Value) :
  isCLIProxyProvider n = false →
  lookupProfile E n = Some pc →
  fs E !! settingsPath E pc = Some (FS.File content) →
  JSON_parse E content = Some v →
  (v = Obj [("env", Obj [("ANTHROPIC_BASE_URL", Str "https://api.z.ai/api/anthropic");
                         ("ANTHROPIC_AUTH_TOKEN", Str "tok123")])] →
   getProvider E n =
     Some {| name := n; type := settings; adapter := "anthropic";
             baseUrl := Str "https://api.z.ai/api/anthropic";
             authToken := Str "tok123"; headers := None |}) ∧
  (v ≠ Null → v ≠ Undefined →
   fieldAt v ["env"; "ANTHROPIC_BASE_URL"] = None →
   ∃ p, getProvider E n = Some p ∧
        name p = n ∧ type p = settings ∧
        baseUrl p = Str "https://api.anthropic.com/v1").
Proof.
  intros Hbuiltin Hpc Hfile Hparse.
  destruct (resolveSettingsProfile_reads_env E n pc content v Hpc Hfile Hparse)
    as [Hscenario Hdefault].
  unfold getProvider. rewrite Hbuiltin. split.
  - intros Hv. by rewrite (Hscenario Hv).
  - intros Hnull Hundef Habs.
    destruct (Hdefault Hnull Hundef Habs) as (p & Hp & Hrest).
    exists p. by rewrite Hp.
Qed.

(** The scenario on disk: the settings file of [glm] in [profilesEnv] holds
    the JSON text of the scenario, and the settings file of [kimi] has no
    base URL. *)
Lemma getProvider_reads_settings_env_witness :
  getProvider Examples.profilesEnv "glm" =
    Some {| name := "glm"; type := settings; adapter := "anthropic";
            baseUrl := Str "https://api.z.ai/api/anthropic";
            authToken := Str "tok123"; headers := None |} ∧
  ∃ p, getProvider Examples.profilesEnv "kimi" = Some p ∧
       name p = "kimi" ∧ type p = settings ∧
       baseUrl p = Str "https://api.anthropic.com/v1".
Proof.
  split.
  - refine (proj1 (getProvider_reads_settings_env
                     Examples.profilesEnv "glm" Examples.glmProfile
                     (Json.stringify Examples.glmSettings) Examples.glmSettings
                     _ _ _ _) _); reflexivity.
  - refine (proj2 (getProvider_reads_settings_env
                     Examples.profilesEnv "kimi" Examples.kimiProfile
                     (Json.stringify Examples.kimiSettings) Examples.kimiSettings
                     _ _ _ _) _ _ _); try reflexivity; discriminate.
Defined.

(** C8 as stated fails twice.  In [builtinNameEnv] the credential profile
    [agy] has a settings file that parses to the object of the scenario, and
    resolving [agy] gives the built-in multiplexer descriptor: a local base
    URL and no token.  In [nullSettingsEnv] the settings file of [kimi]
    parses (to null) and has no base-URL field, and resolving [kimi] gives
    no descriptor at all, hence no default base URL. *)
Lemma getProvider_builtin_name_counterexample :
  (lookupProfile EdgeExamples.builtinNameEnv "agy" = Some Examples.glmProfile ∧
   fs EdgeExamples.builtinNameEnv
     !! settingsPath EdgeExamples.builtinNameEnv Examples.glmProfile
   = Some (FS.File (Json.stringify Examples.glmSettings)) ∧
   JSON_parse EdgeExamples.builtinNameEnv (Json.stringify Examples.glmSettings)
   = Some (Obj [("env", Obj [("ANTHROPIC_BASE_URL", Str "https://api.z.ai/api/anthropic");
                             ("ANTHROPIC_AUTH_TOKEN", Str "tok123")])]) ∧
   getProvider EdgeExamples.builtinNameEnv "agy" =
     Some {| name := "agy"; type := cliproxy; adapter := "anthropic";
             baseUrl := Str "http://127.0.0.1:8317/api/provider/agy/v1";
             authToken := Undefined; headers := None |}) ∧
  (isCLIProxyProvider "kimi" = false ∧
   lookupProfile EdgeExamples.nullSettingsEnv "kimi" = Some Examples.kimiProfile ∧
   fs EdgeExamples.nullSettingsEnv
     !! settingsPath EdgeExamples.nullSettingsEnv Examples.kimiProfile
   = Some (FS.File "null") ∧
   JSON_parse EdgeExamples.nullSettingsEnv "null" = Some Null ∧
   fieldAt Null ["env"; "ANTHROPIC_BASE_URL"] = None ∧
   getProvider EdgeExamples.nullSettingsEnv "kimi" = None).
Proof. repeat split; reflexivity. Qed.

(** A settings file holding the JSON text [null] gives no descriptor: the
    read of [settings.env] throws inside the [try] block. *)
Lemma resolveSettingsProfile_null
  (E : Env) (n : string) (pc : ProfileConfig) (content : string) :
  lookupProfile E n = Some pc →
  fs E !! settingsPath E pc = Some (FS.File content) →
  JSON_parse E content = Some Null →
  resolveSettingsProfile E n = None.
Proof.
  intros Hpc Hfile Hparse. unfold resolveSettingsProfile. rewrite Hpc.
  fold (settingsPath E pc). rewrite (existsSync_true _ _ _ Hfile). simpl.
  unfold readSettings, FS.readFileSync. rewrite Hfile. simpl. by rewrite Hparse.
Qed.

Lemma assoc_Some_keys {A : Type} (k : string) (record : list (string * A)) (a : A) :
  assoc k record = Some a → k ∈ keys record.
Proof.
  induction record as [|[k' a'] record IH]; simpl; [done|].
  destruct (String.eqb k k') eqn:Hk.
  - apply String.eqb_eq in Hk as ->. intros _. apply list_elem_of_here.
  - intros H. apply list_elem_of_further. by apply IH.
Qed.

Lemma resolveSettingsProfile_name (E : Env) (n : string) (p : ResolvedProvider) :
  resolveSettingsProfile E n = Some p → name p = n ∧ type p = settings.
Proof.
  unfold resolveSettingsProfile, readSettings. intros H.
  repeat (case_match; simplify_option_eq; try done).
Qed.

(** When [resolveSettingsProfile] produces a descriptor: the profile is
    known, its settings file is a readable file, and the text parses to a
    value on which [settings.env] can be read. *)
Lemma resolveSettingsProfile_is_Some (E : Env) (n : string) :
  is_Some (resolveSettingsProfile E n) ↔
  ∃ pc content v,
    lookupProfile E n = Some pc ∧
    fs E !! settingsPath E pc = Some (FS.File content) ∧
    JSON_parse E content = Some v ∧ v ≠ Null ∧ v ≠ Undefined.
Proof.
  split.
  - intros [p Hp]. unfold resolveSettingsProfile in Hp.
    destruct (lookupProfile E n) as [pc|] eqn:Hpc; [|done].
    fold (settingsPath E pc) in Hp.
    destruct (FS.existsSync (fs E) (settingsPath E pc)); simpl in Hp; [|done].
    unfold readSettings, FS.readFileSync in Hp.
    destruct (fs E !! settingsPath E pc) as [[content|]|] eqn:Hfile;
      simpl in Hp; try done.
    destruct (JSON_parse E content) as [v|] eqn:Hparse; simpl in Hp; [|done].
    destruct (JS.get v "env") as [env0|] eqn:Henv; simpl in Hp; [|done].
    destruct (get_Some_non_nullish _ _ _ Henv).
    exists pc, content, v. done.
  - intros (pc & content & v & Hpc & Hfile & Hparse & Hnull & Hundef).
    destruct (get_non_nullish v "env" Hnull Hundef) as [env0 Henv].
    destruct (get_or_empty env0 "ANTHROPIC_BASE_URL") as [url Hurl].
    destruct (get_or_empty env0 "ANTHROPIC_AUTH_TOKEN") as [tok Htok].
    unfold resolveSettingsProfile. rewrite Hpc. fold (settingsPath E pc).
    rewrite (existsSync_true _ _ _ Hfile). simpl.
    unfold readSettings, FS.readFileSync. rewrite Hfile. simpl.
    rewrite Hparse. simpl. rewrite Henv. simpl. rewrite Hurl, Htok. simpl. eauto.
Qed.

Lemma settingsProviders_elem (E : Env) (p : ResolvedProvider) :
  p ∈ settingsProviders E ↔ resolveSettingsProfile E (name p) = Some p.
Proof.
  unfold settingsProviders. split.
  - destruct (loadUnifiedConfig E ≫= profiles) as [ps|]; [|by intros ?%elem_of_nil].
    intros (k & _ & Hk)%list_elem_of_omap.
    destruct (resolveSettingsProfile_name E k p Hk) as [-> _]. done.
  - intros Hp.
    assert (is_Some (lookupProfile E (name p))) as [pc Hpc].
    { apply mk_is_Some in Hp. apply resolveSettingsProfile_is_Some in Hp.
      destruct Hp as (pc & _ & _ & Hpc & _). eauto. }
    unfold lookupProfile in Hpc.
    destruct (loadUnifiedConfig E) as [cfg|]; simpl in *; [|done].
    destruct (profiles cfg) as [ps|]; simpl in *; [|done].
    apply list_elem_of_omap. exists (name p). split; [|done].
    by eapply assoc_Some_keys.
Qed.

Lemma cliproxyProviders_type (p : ResolvedProvider) :
  p ∈ cliproxyProviders → type p = cliproxy.
Proof.
  unfold cliproxyProviders. intros (n & -> & _)%list_elem_of_fmap. done.
Qed.

Lemma apiProviders_type (E : Env) (p : ResolvedProvider) :
  p ∈ apiProviders E → type p = api.
Proof.
  unfold apiProviders. destruct (loadRouterConfig E ≫= providers) as [ps|].
  - intros ([n cfg] & -> & _)%list_elem_of_fmap. done.
  - by intros ?%elem_of_nil.
Qed.

(** C9, as the code has it: a credential-profile name is listed by
    [getAllProviders] (with a descriptor of type [settings]) exactly when
    its settings file exists as a readable file whose text parses to a JSON
    value other than null.  A missing file, a directory in its place, a
    text that does not parse and the text [null] all lead to the silent
    omission of the name; nothing is raised, the result is always a list. *)
Theorem getAllProviders_lists_settings_profile (E : Env) (n : string) :
  (∃ p, p ∈ getAllProviders E ∧ type p = settings ∧ name p = n) ↔
  (∃ pc content v,
     lookupProfile E n = Some pc ∧
     fs E !! settingsPath E pc = Some (FS.File content) ∧
     JSON_parse E content = Some v ∧ v ≠ Null ∧ v ≠ Undefined).
Proof.
  rewrite <- resolveSettingsProfile_is_Some. unfold getAllProviders. split.
  - intros (p & Hin & Hty & Hn).
    apply elem_of_app in Hin as [Hin | Hin].
    { apply cliproxyProviders_type in Hin. congruence. }
    apply elem_of_app in Hin as [Hin | Hin].
    + apply settingsProviders_elem in Hin. rewrite Hn in Hin. eauto.
    + apply apiProviders_type in Hin. congruence.
  - intros [p Hp]. exists p.
    destruct (resolveSettingsProfile_name E n p Hp) as [Hn Hty].
    split; [|done].
    apply elem_of_app. right. apply elem_of_app. left.
    apply settingsProviders_elem. by rewrite Hn.
Qed.

(** C9 as stated fails: in [truncatedEnv] the settings file of the profile
    [kimi] exists, and no entry of the aggregate list carries that name. *)
Lemma getAllProviders_existing_file_counterexample :
  lookupProfile Examples.truncatedEnv "kimi" = Some Examples.kimiProfile ∧
  FS.existsSync (fs Examples.truncatedEnv)
    (settingsPath Examples.truncatedEnv Examples.kimiProfile) = true ∧
  Forall (λ p, name p ≠ "kimi") (getAllProviders Examples.truncatedEnv).
Proof.
  split; [reflexivity|]. split; [reflexivity|].
  vm_compute. repeat constructor; discriminate.
Qed.

End RegistryFacts.

(** ** Strings *)

Module StringFacts.

Lemma append_nil (s : string) : "" +:+ s = s.
Proof. reflexivity. Qed.

Lemma append_cons (c : ascii) (s t : string) : String c s +:+ t = String c (s +:+ t).
Proof. reflexivity. Qed.

Lemma append_nil_r (s : string) : s +:+ "" = s.
Proof. induction s as [|c s IH]; [done|]. by rewrite append_cons, IH. Qed.

Lemma append_assoc (s t u : string) : (s +:+ t) +:+ u = s +:+ t +:+ u.
Proof. induction s as [|c s IH]; [done|]. by rewrite !append_cons, IH. Qed.

Lemma length_append (s t : string) :
  String.length (s +:+ t) = (String.length s + String.length t)%nat.
Proof. induction s as [|c s IH]; [done|]. rewrite append_cons. simpl. by rewrite IH. Qed.

Lemma substring_all (s : string) : String.substring 0 (String.length s) s = s.
Proof. induction s as [|c s IH]; [done|]. simpl. by rewrite IH. Qed.

Lemma substring_append_r (a t : string) :
  String.substring (String.length a) (String.length t) (a +:+ t) = t.
Proof.
  induction a as [|c a IH]; [apply substring_all|].
  rewrite append_cons. simpl. exact IH.
Qed.

Lemma substring_split (s : string) (k : nat) :
  (k ≤ String.length s)%nat →
  s = String.substring 0 k s +:+ String.substring k (String.length s - k) s.
Proof.
  revert k. induction s as [|c s IH]; intros k Hk.
  - simpl in Hk. assert (k = 0)%nat as -> by lia. reflexivity.
  - destruct k as [|k].
    + simpl. rewrite append_nil. by rewrite substring_all.
    + simpl in Hk. simpl String.length. simpl String.substring.
      rewrite append_cons. f_equal. apply IH. lia.
Qed.

(** Two ways of cutting the same string overlap in a common middle part. *)
Lemma append_eq_append (a x b y : string) :
  a +:+ x = b +:+ y →
  (∃ d, b = a +:+ d ∧ x = d +:+ y) ∨ (∃ d, a = b +:+ d ∧ y = d +:+ x).
Proof.
  revert b. induction a as [|c a IH]; intros b H.
  - left. exists b. by rewrite append_nil in *.
  - destruct b as [|c' b].
    + right. exists (String c a). by rewrite append_nil in *.
    + rewrite !append_cons in H. injection H as -> H.
      destruct (IH b H) as [(d & -> & ->) | (d & -> & ->)]; [left|right];
        exists d; by rewrite append_cons.
Qed.

End StringFacts.

(** ** The pass-through adapter *)

Module AdapterFacts.
Import JS Registry Adapter StringFacts.

Lemma strip_empty_iff (s : string) :
  strip_trailing_slashes s = "" ↔ all_slashes s = true.
Proof.
  induction s as [|c s IH]; [done|]. simpl.
  destruct (strip_trailing_slashes s) eqn:Hs.
  - destruct (Ascii.eqb c "/"); simpl; [tauto|]. split; done.
  - destruct (Ascii.eqb c "/"); simpl; [|split; done].
    split; [done|]. intros H. apply IH in H. done.
Qed.

(** The regular-expression replacement strips exactly the trailing slashes. *)
Lemma replace_is_strip (s : string) :
  replace_trailing_slashes s = strip_trailing_slashes s.
Proof.
  induction s as [|c s IH]; [done|].
  simpl replace_trailing_slashes. simpl strip_trailing_slashes.
  rewrite IH. destruct (strip_trailing_slashes s) eqn:Hs.
  - assert (all_slashes s = true) as -> by by apply strip_empty_iff.
    rewrite andb_true_r. by destruct (Ascii.eqb c "/").
  - assert (all_slashes s = false) as ->.
    { apply not_true_is_false. intros H%strip_empty_iff. congruence. }
    by rewrite andb_false_r.
Qed.

(** What is stripped is a run of slashes. *)
Lemma strip_is_prefix (s : string) :
  ∃ t, s = strip_trailing_slashes s +:+ t ∧ all_slashes t = true.
Proof.
  induction s as [|c s (t & IH & Ht)]; [by exists ""|]. simpl.
  destruct (strip_trailing_slashes s) eqn:Hs.
  - apply strip_empty_iff in Hs. destruct (Ascii.eqb c "/") eqn:Hc.
    + exists (String c s). split; [done|]. simpl. by rewrite Hc, Hs.
    + exists s. split; [|done]. by rewrite append_cons, append_nil.
  - exists t. split; [|done]. rewrite append_cons. by f_equal.
Qed.

(** [endsWith] decides the suffix relation. *)
Lemma endsWith_iff (s t : string) : endsWith s t = true ↔ ends_in s t.
Proof.
  unfold endsWith, ends_in. rewrite andb_true_iff, Nat.leb_le, String.eqb_eq. split.
  - intros [Hle Hsub].
    exists (String.substring 0 (String.length s - String.length t) s).
    pose proof (substring_split s (String.length s - String.length t)) as Hsplit.
    replace (String.length s - (String.length s - String.length t))%nat
      with (String.length t) in Hsplit by lia.
    rewrite Hsub in Hsplit. apply Hsplit. lia.
  - intros [a ->]. rewrite length_append. split; [lia|].
    replace (String.length a + String.length t - String.length t)%nat
      with (String.length a) by lia.
    apply substring_append_r.
Qed.

Lemma contains_prefix (s t x : string) : contains s x → contains (s +:+ t) x.
Proof.
  intros (a & b & ->). exists a, (b +:+ t). by rewrite !append_assoc.
Qed.

(** Peel one character off the unknown middle part [d] of an equation
    between two concatenations. *)
Ltac peel :=
  match goal with
  | H : _ = ?d +:+ _ |- _ =>
      is_var d; destruct d;
      rewrite ?append_cons, ?append_nil in H; simplify_eq
  end.

Ltac found_in_prefix :=
  match goal with
  | |- contains (?a +:+ _) _ => exists a; eexists; reflexivity
  | |- ends_in (?a +:+ _) _ => exists a; reflexivity
  end.

(** Appending the request path creates no doubled version prefix: one
    found in the result was in the base already. *)
Lemma no_doubled_version_prefix (b : string) :
  (ends_in b "/v1" → contains (b +:+ "/messages") "/v1/v1/" →
   contains b "/v1/v1/" ∨ ends_in b "/v1/v1") ∧
  (¬ ends_in b "/v1" → contains (b +:+ "/v1/messages") "/v1/v1/" →
   contains b "/v1/v1/").
Proof.
  split.
  - intros _ (a & c & H).
    apply append_eq_append in H as [(d & -> & H) | (d & -> & H)].
    + by do 10 peel.
    + do 6 peel. peel.
      * right. found_in_prefix.
      * left. found_in_prefix.
  - intros Hend (a & c & H).
    apply append_eq_append in H as [(d & -> & H) | (d & -> & H)].
    + by do 13 peel.
    + do 3 peel. peel.
      { destruct Hend. found_in_prefix. }
      do 2 peel. peel.
      * destruct Hend. exists (a +:+ "/v1"). by rewrite append_assoc.
      * found_in_prefix.
Qed.

(** A doubled prefix at the end of the stripped base is in the base URL. *)
Lemma doubled_prefix_in_base (url : string) :
  contains (strip_trailing_slashes url) "/v1/v1/" ∨
  ends_in (strip_trailing_slashes url) "/v1/v1" →
  contains url "/v1/v1/" ∨ ends_in url "/v1/v1".
Proof.
  destruct (strip_is_prefix url) as (t & Hurl & Ht).
  intros [Hin | [a Hend]].
  - left. rewrite Hurl. by apply contains_prefix.
  - destruct t as [|c t].
    + right. exists a. by rewrite Hurl, Hend, append_nil_r.
    + left. simpl in Ht. apply andb_true_iff in Ht as [Hc%Ascii.eqb_eq _].
      subst c. exists a, t. by rewrite Hurl, Hend, !append_assoc.
Qed.

(** The reference definition determines the endpoint. *)
Lemma endpoint_reference_functional (url r1 r2 : string) :
  endpoint_reference url r1 → endpoint_reference url r2 → r1 = r2.
Proof.
  unfold endpoint_reference.
  intros [[H1 ->] | [H1 ->]] [[H2 ->] | [H2 ->]]; done.
Qed.

(** C6: on every descriptor whose base URL is a string, [getEndpoint]
    returns the endpoint of the reference definition (trailing slashes
    stripped, then [/messages] after a base ending in [/v1] and
    [/v1/messages] otherwise); and the result has a doubled version prefix
    [/v1/v1/] only if the base URL already contains it or ends in
    [/v1/v1]. *)
Theorem getEndpoint_matches_reference (p : ResolvedProvider) (url : string) :
  baseUrl p = Str url →
  ∃ r, getEndpoint p = Some r ∧
       endpoint_reference url r ∧
       (contains r "/v1/v1/" → contains url "/v1/v1/" ∨ ends_in url "/v1/v1").
Proof.
  intros Hurl. unfold getEndpoint, endpoint_reference. rewrite Hurl.
  rewrite replace_is_strip.
  set (b := strip_trailing_slashes url).
  destruct (endsWith b "/v1") eqn:Hend.
  - apply endsWith_iff in Hend. eexists. split; [done|]. split; [by left|].
    intros Hin. apply doubled_prefix_in_base.
    by apply (no_doubled_version_prefix b).
  - assert (¬ ends_in b "/v1") as Hnot.
    { intros H%endsWith_iff. congruence. }
    eexists. split; [done|]. split; [by right|].
    intros Hin. apply doubled_prefix_in_base. left.
    by apply (no_doubled_version_prefix b).
Qed.

(** The descriptor of the built-in provider [agy], whose base URL already
    ends in the version prefix. *)
Lemma getEndpoint_matches_reference_witness :
  ∃ r, getEndpoint Examples.agy = Some r ∧
       endpoint_reference "http://127.0.0.1:8317/api/provider/agy/v1" r ∧
       (contains r "/v1/v1/" →
        contains "http://127.0.0.1:8317/api/provider/agy/v1" "/v1/v1/" ∨
        ends_in "http://127.0.0.1:8317/api/provider/agy/v1" "/v1/v1").
Proof.
  apply (getEndpoint_matches_reference Examples.agy). reflexivity.
Defined.

Lemma getEndpoint_agy :
  getEndpoint Examples.agy = Some "http://127.0.0.1:8317/api/provider/agy/v1/messages".
Proof. reflexivity. Qed.

Lemma getEndpoint_trailing_slash :
  getEndpoint Examples.emptyToken = Some "http://localhost:4000/v1/messages".
Proof. reflexivity. Qed.

(** A base URL that is not a string makes [getEndpoint] throw. *)
Lemma getEndpoint_not_a_string (p : ResolvedProvider) :
  (∀ url, baseUrl p ≠ Str url) → getEndpoint p = None.
Proof. unfold getEndpoint. destruct (baseUrl p); try done. intros H. by destruct (H s). Qed.

Lemma getHeaders_union (p : ResolvedProvider) :
  getHeaders p = default ∅ (headers p) ∪ ownHeaders p.
Proof.
  unfold getHeaders, ownHeaders. destruct (headers p); simpl; [done|].
  by rewrite (left_id_L ∅ (∪)).
Qed.

(** C7, as the code has it: the result always has a [Content-Type] entry,
    which is [application/json] unless a custom header replaces it; every
    custom header is in the result with its own value; and, when no custom
    header is called [Authorization], the result has an [Authorization]
    entry exactly when the token is a non-empty string, with the value
    [Bearer ] followed by the token: an absent token and the empty string
    both leave the entry out. *)
Theorem getHeaders_contents (p : ResolvedProvider) :
  let custom := default ∅ (headers p) in
  is_Some (getHeaders p !! "Content-Type") ∧
  (custom !! "Content-Type" = None →
   getHeaders p !! "Content-Type" = Some "application/json") ∧
  (∀ k v, custom !! k = Some v → getHeaders p !! k = Some v) ∧
  (custom !! "Authorization" = None →
   (∀ tok, authToken p = Str tok → tok ≠ "" →
      getHeaders p !! "Authorization" = Some ("Bearer " +:+ tok)) ∧
   (authToken p = Undefined ∨ authToken p = Str "" →
      getHeaders p !! "Authorization" = None)).
Proof.
  intros custom. rewrite getHeaders_union. fold custom.
  assert (ownHeaders p !! "Content-Type" = Some "application/json") as Hct.
  { unfold ownHeaders. destruct (truthy (authToken p)).
    - by rewrite lookup_insert_ne.
    - by rewrite lookup_singleton_eq. }
  repeat split.
  - destruct (custom !! "Content-Type") as [v|] eqn:Hc.
    + exists v. by apply lookup_union_Some_l.
    + exists "application/json". by rewrite lookup_union_r.
  - intros Hc. by rewrite lookup_union_r.
  - intros k v Hk. by apply lookup_union_Some_l.
  - intros tok Htok Hne. rewrite lookup_union_r by done.
    unfold ownHeaders. rewrite Htok. simpl.
    destruct (String.eqb_spec tok ""); [done|]. simpl.
    by rewrite lookup_insert_eq.
  - intros Hunset. rewrite lookup_union_r by done.
    unfold ownHeaders. by destruct Hunset as [-> | ->].
Qed.

(** C7 as stated fails: the token of [emptyToken] is set (to the empty
    string), there are no custom headers, and the result has no
    [Authorization] entry. *)
Lemma getHeaders_empty_token_counterexample :
  authToken Examples.emptyToken ≠ Undefined ∧
  headers Examples.emptyToken = None ∧
  getHeaders Examples.emptyToken !! "Authorization" = None.
Proof. split; [discriminate|]. split; reflexivity. Qed.

End AdapterFacts.

(** ** Health monitoring *)

Module HealthFacts.
Import JS Registry Health StringFacts.

Section Monitor.
Context {Ext PortProcess : Type} `{C : Collaborators Ext PortProcess}.

(** Unfold the monadic plumbing of a check. *)
Ltac run :=
  unfold checkProviderHealth, cacheLookup, liveCheck,
    checkCLIProxyProviderHealth, checkApiProviderHealth, portCacheExpired,
    try_catch, bind, ret, Date_now, new_Date, await_getPortProcess,
    call_getAuthStatus, await_fetch, get_healthCache, healthCache_set,
    get_cliproxyPortHealthy, get_cliproxyPortCheckedAt,
    set_cliproxyPortHealthy, set_cliproxyPortCheckedAt, set_ext, log in *;
  simpl in *.

(** The multiplexer check always returns; its result and its effects. *)
Lemma checkCLIProxyProviderHealth_run
  (p : ResolvedProvider) (w : World Ext PortProcess) :
  ∃ r w' probes auth portOk,
    checkCLIProxyProviderHealth p w = (Returned r, w') ∧
    trace w' = trace w ++ probes ++ [AuthQuery (name p) auth] ∧
    healthCache w' = healthCache w ∧
    cliproxyPortHealthy w' = Some portOk ∧
    (probes = [] ∧ cliproxyPortHealthy w = Some portOk ∧
       is_Some (cliproxyPortCheckedAt w)
     ∨ ∃ answer, probes = [PortProbe CLIPROXY_DEFAULT_PORT answer] ∧
         portOk = match answer with
                  | Some proc => isCLIProxyProcess proc
                  | None => false
                  end) ∧
    (probes = [] ↔
     ∃ b checked,
       cliproxyPortHealthy w = Some b ∧ cliproxyPortCheckedAt w = Some checked ∧
       (clock (clock (ext w)).2).1 - checked ≤ CACHE_TTL) ∧
    provider r = name p ∧
    healthy r = portOk && authenticated auth ∧
    error r = (if portOk
               then if authenticated auth then None else Some "Not authenticated"
               else Some "CLIProxy not running").
Proof.
  destruct w as [e tr hc ph pc]. run.
  destruct ph as [b|], pc as [checked|]; simpl;
    try destruct (_ >? CACHE_TTL) eqn:Hexpired; simpl.
  all: try (destruct (match (getPortProcess _ _).1 with
                      | Some proc => isCLIProxyProcess proc
                      | None => false
                      end) eqn:Hport; simpl).
  all: try destruct b; simpl.
  all: try (destruct (authenticated _) eqn:Hauth; simpl).
  all: match goal with
       | |- context [ (_ ++ [?ev]) ++ [AuthQuery _ ?a] ] =>
           eexists; eexists; exists [ev], a; eexists
       | |- context [ _ ++ [AuthQuery _ ?a] ] =>
           eexists; eexists; exists [], a; eexists
       end.
  all: split; [reflexivity|]; simpl; rewrite <- ?app_assoc.
  all: split; [reflexivity|]; split; [reflexivity|]; split; [reflexivity|].
  all: rewrite ?Hauth; simpl.
  all: split; [first [ by left; eauto | by right; eauto ] |].
  all: split; [|done].
  all: try (rewrite Z.gtb_ltb in Hexpired;
            first [ apply Z.ltb_ge in Hexpired | apply Z.ltb_lt in Hexpired ]).
  all: split;
    [ intros Hnone; try discriminate Hnone; eauto 6
    | intros (b0 & checked0 & ? & ? & ?); simplify_eq; try done; simpl in *; lia ].
Qed.

(** C2, as the code has it: the verdict of the multiplexer check is healthy
    exactly when the port status and the auth status are both good.  The
    port status is the cached one while it is fresh and otherwise the answer
    of a probe of the port; the auth status is asked on every check.  With a
    bad port status the error reads [CLIProxy not running] whatever the auth
    status; with a good port status and a bad auth status it reads
    [Not authenticated]. *)
Theorem checkCLIProxyProviderHealth_verdict
  (p : ResolvedProvider) (w : World Ext PortProcess) :
  ∃ r w' probes auth portOk,
    checkCLIProxyProviderHealth p w = (Returned r, w') ∧
    (* what was asked of the outside world, and the port status used *)
    trace w' = trace w ++ probes ++ [AuthQuery (name p) auth] ∧
    cliproxyPortHealthy w' = Some portOk ∧
    (probes = [] ∧ cliproxyPortHealthy w = Some portOk
     ∨ ∃ answer, probes = [PortProbe CLIPROXY_DEFAULT_PORT answer] ∧
         portOk = match answer with
                  | Some proc => isCLIProxyProcess proc
                  | None => false
                  end) ∧
    (probes = [] ↔
     ∃ b checked,
       cliproxyPortHealthy w = Some b ∧ cliproxyPortCheckedAt w = Some checked ∧
       (clock (clock (ext w)).2).1 - checked ≤ CACHE_TTL) ∧
    (* the verdict *)
    provider r = name p ∧
    (healthy r = true ↔ portOk = true ∧ authenticated auth = true) ∧
    (portOk = false →
     healthy r = false ∧ error r = Some "CLIProxy not running") ∧
    (portOk = true → authenticated auth = false →
     healthy r = false ∧ error r = Some "Not authenticated") ∧
    (portOk = true → authenticated auth = true → error r = None).
Proof.
  destruct (checkCLIProxyProviderHealth_run p w)
    as (r & w' & probes & auth & portOk & Hrun & Htrace & _ & Hport & Hprobe
        & Hwhen & Hname & Hhealthy & Herror).
  exists r, w', probes, auth, portOk.
  split; [done|]. split; [done|]. split; [done|]. split.
  { destruct Hprobe as [(? & ? & _) | ?]; [by left | by right]. }
  split; [done|]. split; [done|].
  rewrite Hhealthy, Herror. split; [by rewrite andb_true_iff|].
  split; [by intros ->|]. split; by intros -> ->.
Qed.

(** The HTTP check always returns: its only fallible step, the fetch, is
    inside the [try] block. *)
Lemma checkApiProviderHealth_run (p : ResolvedProvider) (w : World Ext PortProcess) :
  let answer := (fetch (healthRequest p) (clock (ext w)).2).1 in
  ∃ r w',
    checkApiProviderHealth p w = (Returned r, w') ∧
    trace w' = trace w ++ [Fetch (healthRequest p) answer] ∧
    healthCache w' = healthCache w ∧
    provider r = name p ∧
    match answer with
    | inl response =>
        healthy r = ok response ∧
        error r = (if ok response then None
                   else Some ("HTTP " +:+ pretty (status response) +:+ ": "
                              +:+ statusText response))
    | inr thrown => healthy r = false ∧ error r = Some (errorMessage thrown)
    end.
Proof.
  destruct w as [e tr hc ph pc]. unfold healthRequest. run.
  destruct (fetch _ _).1 as [response | thrown] eqn:Hfetch; simpl.
  - destruct (ok response) eqn:Hok; simpl; eexists; eexists;
      (split; [reflexivity|]); simpl; by rewrite ?Hok.
  - eexists; eexists; (split; [reflexivity|]); done.
Qed.

Lemma liveCheck_run (p : ResolvedProvider) (w : World Ext PortProcess) :
  ∃ r w' events,
    liveCheck p w = (Returned r, w') ∧
    trace w' = trace w ++ events ∧ events ≠ [] ∧
    healthCache w' = healthCache w ∧
    provider r = name p.
Proof.
  unfold liveCheck. destruct (decide (type p = cliproxy)).
  - destruct (checkCLIProxyProviderHealth_run p w)
      as (r & w' & probes & auth & portOk & Hrun & Htr & Hc & _ & _ & _ & Hp & _).
    exists r, w', (probes ++ [AuthQuery (name p) auth]).
    repeat split; try done. by destruct probes.
  - destruct (checkApiProviderHealth_run p w) as (r & w' & Hrun & Htr & Hc & Hp & _).
    exists r, w'. eexists. repeat split; try done.
Qed.

Lemma checkProviderHealth_hit
  (p : ResolvedProvider) (w : World Ext PortProcess) (cached : ProviderHealthResult) :
  healthCache w !! name p = Some cached →
  (clock (ext w)).1 - checkedAt cached < CACHE_TTL →
  checkProviderHealth p w = (Returned cached, set_ext (clock (ext w)).2 w).
Proof.
  intros Hc Hage. unfold checkProviderHealth, cacheLookup, bind, get_healthCache.
  rewrite Hc. unfold Date_now, ret. simpl.
  by rewrite (proj2 (Z.ltb_lt _ _) Hage).
Qed.

Lemma checkProviderHealth_miss
  (p : ResolvedProvider) (w w0 w1 : World Ext PortProcess) (r : ProviderHealthResult) :
  cacheLookup p w = (Returned None, w0) →
  liveCheck p w0 = (Returned r, w1) →
  checkProviderHealth p w =
    (Returned r,
     mkWorld (ext w1) (trace w1) (<[name p := r]> (healthCache w1))
             (cliproxyPortHealthy w1) (cliproxyPortCheckedAt w1)).
Proof.
  intros Hlook Hlive. unfold checkProviderHealth, bind.
  rewrite Hlook, Hlive. reflexivity.
Qed.

Lemma cacheLookup_stale
  (p : ResolvedProvider) (w : World Ext PortProcess) (cached : ProviderHealthResult) :
  healthCache w !! name p = Some cached →
  CACHE_TTL ≤ (clock (ext w)).1 - checkedAt cached →
  cacheLookup p w = (Returned None, set_ext (clock (ext w)).2 w).
Proof.
  intros Hc Hage. unfold cacheLookup, bind, get_healthCache. rewrite Hc.
  unfold Date_now, ret. simpl.
  by rewrite (proj2 (Z.ltb_ge _ _) Hage).
Qed.

Lemma cacheLookup_absent (p : ResolvedProvider) (w : World Ext PortProcess) :
  healthCache w !! name p = None → cacheLookup p w = (Returned None, w).
Proof.
  intros Hc. unfold cacheLookup, bind, get_healthCache. by rewrite Hc.
Qed.

(** C3: with a cached record for the provider, a call that reads the clock
    less than 30 seconds after the record was taken returns that record,
    performs no input or output and leaves the cache as it is; a call that
    reads the clock 30 seconds or more after it runs the live check, returns
    the record of that check and stores it under the name of the provider
    in place of the old one. *)
Theorem checkProviderHealth_ttl
  (p : ResolvedProvider) (w : World Ext PortProcess) (cached : ProviderHealthResult) :
  healthCache w !! name p = Some cached →
  let age := (clock (ext w)).1 - checkedAt cached in
  let w0 := set_ext (clock (ext w)).2 w in
  (age < 30000 →
   checkProviderHealth p w = (Returned cached, w0) ∧
   trace w0 = trace w ∧ healthCache w0 = healthCache w) ∧
  (30000 ≤ age →
   ∃ r w1 w' events,
     liveCheck p w0 = (Returned r, w1) ∧
     checkProviderHealth p w = (Returned r, w') ∧
     trace w' = trace w ++ events ∧ events ≠ [] ∧
     healthCache w' = <[name p := r]> (healthCache w) ∧
     healthCache w' !! name p = Some r).
Proof.
  intros Hc age w0. split.
  - intros Hage. split; [|done]. by apply checkProviderHealth_hit.
  - intros Hage.
    destruct (liveCheck_run p w0) as (r & w1 & events & Hlive & Htr & Hne & Hhc & _).
    exists r, w1. eexists. exists events. split; [done|]. split.
    { eapply checkProviderHealth_miss; [|done]. by apply (cacheLookup_stale p w cached). }
    simpl. rewrite Hhc. repeat split; try done. by rewrite lookup_insert_eq.
Qed.

Lemma ok_iff (response : Response) :
  ok response = true ↔ 200 ≤ status response ≤ 299.
Proof. unfold ok. rewrite andb_true_iff, !Z.leb_le. done. Qed.

(** C5: a health check always returns a record and never throws, with or
    without a cache entry and for both kinds of check.  In the HTTP check a
    response with a status in 200-299 gives a healthy record; any other
    response gives an unhealthy record whose error contains the status code
    and the reason phrase; a rejected fetch gives an unhealthy record whose
    error is the message of the error object, whatever the kind of error
    (a timeout of the 5000 ms signal is one of them). *)
Theorem health_check_never_throws
  (p : ResolvedProvider) (w : World Ext PortProcess) :
  (∃ r w', checkProviderHealth p w = (Returned r, w')) ∧
  (∃ r w', checkCLIProxyProviderHealth p w = (Returned r, w')) ∧
  (∃ r w' req answer,
     checkApiProviderHealth p w = (Returned r, w') ∧
     trace w' = trace w ++ [Fetch req answer] ∧
     timeout_ms req = 5000 ∧
     match answer with
     | inl response =>
         healthy r = ok response ∧
         (200 ≤ status response ≤ 299 → healthy r = true ∧ error r = None) ∧
         (¬ 200 ≤ status response ≤ 299 →
          healthy r = false ∧
          ∃ message, error r = Some message ∧
                     contains message (pretty (status response)) ∧
                     contains message (statusText response))
     | inr (ErrorObject kind message) =>
         healthy r = false ∧ error r = Some message
     | inr (NonError _) =>
         healthy r = false ∧ error r = Some "Unknown error"
     end).
Proof.
  split; [|split].
  - unfold checkProviderHealth, bind.
    destruct (healthCache w !! name p) as [cached|] eqn:Hc.
    + destruct (Z_lt_ge_dec ((clock (ext w)).1 - checkedAt cached) CACHE_TTL)
        as [Hfresh | Hstale].
      * unfold cacheLookup, bind, get_healthCache, Date_now, ret.
        rewrite Hc. simpl. rewrite (proj2 (Z.ltb_lt _ _) Hfresh). eauto.
      * rewrite (cacheLookup_stale p w cached Hc) by lia.
        destruct (liveCheck_run p (set_ext (clock (ext w)).2 w))
          as (r & w1 & _ & -> & _). simpl. eauto.
    + rewrite (cacheLookup_absent p w Hc).
      destruct (liveCheck_run p w) as (r & w1 & _ & -> & _). simpl. eauto.
  - destruct (checkCLIProxyProviderHealth_run p w) as (r & w' & _ & _ & _ & ? & _).
    eauto.
  - destruct (checkApiProviderHealth_run p w) as (r & w' & Hrun & Htr & _ & _ & Hans).
    exists r, w', (healthRequest p). eexists.
    split; [done|]. split; [done|]. split; [done|].
    destruct (fetch _ _).1 as [response | [kind message | v]]; simpl in *.
    + destruct Hans as [Hh He]. split; [done|]. split.
      * intros Hrange%ok_iff. by rewrite Hh, He, Hrange.
      * intros Hrange. assert (ok response = false) as Hok.
        { apply not_true_is_false. by rewrite ok_iff. }
        rewrite Hh, He, Hok. split; [done|]. eexists. split; [done|]. split.
        -- by exists "HTTP ", (": " +:+ statusText response).
        -- exists ("HTTP " +:+ pretty (status response) +:+ ": "), "".
           by rewrite !append_assoc, append_nil_r.
    + done.
    + done.
Qed.

(** C10, as the code has it: the HTTP check issues one GET request to the
    base URL followed by [/models]; its headers always have an
    [Authorization] entry; every custom header of the descriptor is among
    them with its own value; and unless a custom header is called
    [Authorization], the entry is [Bearer ] followed by the token when the
    token is a non-empty string, and the empty string when the token is
    absent or is the empty string. *)
Theorem checkApiProviderHealth_request
  (p : ResolvedProvider) (w : World Ext PortProcess) :
  ∃ r w' req answer,
    checkApiProviderHealth p w = (Returned r, w') ∧
    trace w' = trace w ++ [Fetch req answer] ∧
    method req = "GET" ∧
    url req = ToString (baseUrl p) +:+ "/models" ∧
    (∀ u, baseUrl p = Str u → url req = u +:+ "/models") ∧
    let custom := default ∅ (headers p) in
    is_Some (req_headers req !! "Authorization") ∧
    (∀ k v, custom !! k = Some v → req_headers req !! k = Some v) ∧
    (custom !! "Authorization" = None →
     (∀ tok, authToken p = Str tok → tok ≠ "" →
        req_headers req !! "Authorization" = Some ("Bearer " +:+ tok)) ∧
     (authToken p = Undefined ∨ authToken p = Str "" →
        req_headers req !! "Authorization" = Some "")).
Proof.
  destruct (checkApiProviderHealth_run p w) as (r & w' & Hrun & Htr & _).
  exists r, w', (healthRequest p). eexists.
  split; [done|]. split; [done|]. split; [done|]. split; [done|].
  split; [intros u Hu; simpl; by rewrite Hu|]. simpl. unfold healthRequestHeaders.
  set (custom := default ∅ (headers p)). repeat split.
  - destruct (custom !! "Authorization") as [v|] eqn:Hc.
    + exists v. by apply lookup_union_Some_l.
    + rewrite lookup_union_r by done. rewrite lookup_singleton_eq. eauto.
  - intros k v Hk. by apply lookup_union_Some_l.
  - intros tok Htok Hne. rewrite lookup_union_r by done.
    rewrite lookup_singleton_eq, Htok. simpl.
    by destruct (String.eqb_spec tok "").
  - intros Hunset. rewrite lookup_union_r by done.
    rewrite lookup_singleton_eq. by destruct Hunset as [-> | ->].
Qed.

End Monitor.

(** The stale and the fresh cache entry of [glm], on the scripted world. *)
Lemma checkProviderHealth_ttl_witness :
  let w := Examples.cachedWorld Examples.upstreamFailing 970001 in
  checkProviderHealth Examples.withToken w
  = (Returned (mkProviderHealthResult "glm" true 35 None 970001),
     set_ext (clock (ext w)).2 w).
Proof.
  intros w.
  destruct (checkProviderHealth_ttl Examples.withToken w
              (mkProviderHealthResult "glm" true 35 None 970001) eq_refl)
    as [Hhit _].
  apply Hhit. reflexivity.
Defined.

Lemma checkProviderHealth_refreshes_at_ttl :
  (checkProviderHealth Examples.withToken
     (Examples.cachedWorld Examples.upstreamFailing 970000)).1
  = Returned (mkProviderHealthResult "glm" false 120
                (Some "HTTP 500: Internal Server Error") 1000120).
Proof. reflexivity. Qed.

(** C2 as stated fails on the wording of the errors: with nothing listening
    on the port the error reads [CLIProxy not running], and with the
    multiplexer up and the user logged out it reads [Not authenticated]. *)
Lemma checkCLIProxyProviderHealth_message_counterexample :
  let down := checkCLIProxyProviderHealth Examples.agy
                (Examples.freshWorld Examples.proxyDown) in
  let out := checkCLIProxyProviderHealth Examples.agy
               (Examples.freshWorld Examples.loggedOut) in
  trace down.2 = [PortProbe 8317 None; AuthQuery "agy" (mkAuthStatus true)] ∧
  (∃ r, down.1 = Returned r ∧ healthy r = false ∧
        error r = Some "CLIProxy not running" ∧
        error r ≠ Some "multiplexer not running") ∧
  trace out.2 = [PortProbe 8317 (Some "cli-proxy-api");
                 AuthQuery "agy" (mkAuthStatus false)] ∧
  (∃ r, out.1 = Returned r ∧ healthy r = false ∧
        error r = Some "Not authenticated" ∧
        error r ≠ Some "not authenticated").
Proof.
  split; [reflexivity|]. split.
  { eexists. split; [reflexivity|]. simpl.
    split; [done|]. split; [done|]. discriminate. }
  split; [reflexivity|].
  eexists. split; [reflexivity|]. simpl.
  split; [done|]. split; [done|]. discriminate.
Qed.

(** C10 as stated fails on a token that is set to the empty string: the
    header is the empty string, not [Bearer ] followed by the token. *)
Lemma checkApiProviderHealth_empty_token_counterexample :
  let run := checkApiProviderHealth Examples.emptyToken
               (Examples.freshWorld Examples.upstreamFailing) in
  authToken Examples.emptyToken = Str "" ∧
  authToken Examples.emptyToken ≠ Undefined ∧
  headers Examples.emptyToken = None ∧
  (∃ req answer,
     trace run.2 = [Fetch req answer] ∧
     req_headers req !! "Authorization" = Some "" ∧
     req_headers req !! "Authorization" ≠ Some ("Bearer " +:+ "")).
Proof.
  split; [reflexivity|]. split; [discriminate|]. split; [reflexivity|].
  eexists. eexists. split; [reflexivity|]. split; [reflexivity|].
  vm_compute. discriminate.
Qed.

End HealthFacts.

(** ** Configuration writer *)

Module ConfigWriterFacts.
Import JS ConfigWriter FSFacts.

Section Writer.
Context {Doc Node : Type} `{Y : YamlDocument Doc Node}.
Variable configPath : string.


(** When the section is missing, no name is found in it. *)
Lemma deleteRouterProfile_no_section (name text : string) (d : Disk) :
  files d !! configPath = Some (FS.File text) →
  getIn (parseDocument text) ["router"; "profiles"] = None →
  deleteRouterProfile configPath name d = (Returned false, d).
Proof.
  intros Hfile Hnone. unfold deleteRouterProfile.
  rewrite (existsSync_true _ _ _ Hfile). simpl.
  unfold FS.readFileSync. by rewrite Hfile, Hnone.
Qed.

(** A name that the property read finds is deleted with exactly one write,
    of the printed document, when deleting and printing return. *)
Lemma deleteRouterProfile_present (name text data : string) (doc : Doc) (d : Disk) :
  files d !! configPath = Some (FS.File text) →
  profileMember (getIn (parseDocument text) ["router"; "profiles"]) name = true →
  deleteIn (parseDocument text) ["router"; "profiles"; name] = Returned doc →
  toString doc = Returned data →
  deleteRouterProfile configPath name d = (Returned true, write configPath data d).
Proof.
  intros Hfile Hentry Hdel Hprint. unfold deleteRouterProfile.
  rewrite (existsSync_true _ _ _ Hfile). simpl.
  unfold FS.readFileSync. by rewrite Hfile, Hentry, Hdel, Hprint.
Qed.

End Writer.



Lemma deleteRouterProfile_no_file :
  deleteRouterProfile "/home/dev/.ccs/config.yaml" "fast" Examples.emptyDisk
  = (Returned false, Examples.emptyDisk).
Proof. reflexivity. Qed.

Lemma deleteRouterProfile_fast :
  (deleteRouterProfile "/home/dev/.ccs/config.yaml" "fast" Examples.configDisk).1
  = Returned true.
Proof. reflexivity. Qed.

End ConfigWriterFacts.

(** ** Provider registry: priority, listing and enumeration *)

Module RegistryExtra.
Import JS ObjectPrototype Registry Listing FSFacts RegistryFacts.

Lemma assoc_is_Some_keys {A : Type} (k : string) (record : list (string * A)) :
  is_Some (assoc k record) ↔ k ∈ keys record.
Proof.
  split; [intros [a Ha]; by eapply assoc_Some_keys|].
  induction record as [|[k' a'] record IH]; simpl; [by intros ?%elem_of_nil|].
  destruct (String.eqb_spec k k') as [->|Hne]; [eauto|].
  intros [?|?]%elem_of_cons; [done|]. by apply IH.
Qed.

Lemma isCLIProxyProvider_elem (n : string) :
  isCLIProxyProvider n = true ↔ n ∈ CLIPROXY_PROVIDER_LIST.
Proof.
  unfold isCLIProxyProvider. rewrite existsb_exists, list_elem_of_In. split.
  - intros (x & Hx & ->%String.eqb_eq). done.
  - intros H. exists n. split; [done|]. apply String.eqb_refl.
Qed.

Lemma isCLIProxyProvider_not_elem (n : string) :
  isCLIProxyProvider n = false ↔ (n ∉ CLIPROXY_PROVIDER_LIST).
Proof.
  rewrite <- isCLIProxyProvider_elem. by destruct (isCLIProxyProvider n).
Qed.

Lemma lookupProfile_keys (E : Env) (n : string) :
  is_Some (lookupProfile E n) ↔ n ∈ list_settings (listProviders E).
Proof.
  unfold lookupProfile, listProviders. simpl.
  destruct (loadUnifiedConfig E) as [cfg|]; simpl.
  - destruct (profiles cfg) as [ps|]; simpl; [apply assoc_is_Some_keys|].
    split; [by intros [? ?] | by intros ?%elem_of_nil].
  - split; [by intros [? ?] | by intros ?%elem_of_nil].
Qed.

Lemma lookupApiConfig_keys (E : Env) (n : string) :
  is_Some (lookupApiConfig E n) ↔ n ∈ list_api (listProviders E).
Proof.
  unfold lookupApiConfig, listProviders. simpl.
  destruct (loadRouterConfig E) as [cfg|]; simpl.
  - destruct (providers cfg) as [ps|]; simpl; [apply assoc_is_Some_keys|].
    split; [by intros [? ?] | by intros ?%elem_of_nil].
  - split; [by intros [? ?] | by intros ?%elem_of_nil].
Qed.

(** The three ways in which [getProvider] produces a descriptor. *)
Lemma getProvider_Some (E : Env) (n : string) (p : ResolvedProvider) :
  getProvider E n = Some p ↔
  (isCLIProxyProvider n = true ∧ p = resolveCLIProxyProvider n) ∨
  (isCLIProxyProvider n = false ∧ resolveSettingsProfile E n = Some p) ∨
  (isCLIProxyProvider n = false ∧ resolveSettingsProfile E n = None ∧
   ∃ apiConfig, lookupApiConfig E n = Some apiConfig ∧
                p = resolveApiProvider E n apiConfig).
Proof.
  unfold getProvider. destruct (isCLIProxyProvider n).
  - split; [intros [= <-]; by left | intros [[_ ->]|[[? _]|[? _]]]; done].
  - destruct (resolveSettingsProfile E n) as [q|].
    + split; [intros [= <-]; right; by left|].
      intros [[? _]|[[_ ?]|[_ [? _]]]]; done.
    + destruct (lookupApiConfig E n) as [cfg|].
      * split; [intros [= <-]; right; right; eauto|].
        intros [[? _]|[[_ ?]|[_ [_ (c & [= <-] & ->)]]]]; done.
      * split; [done|]. intros [[? _]|[[_ ?]|[_ [_ (c & ? & _)]]]]; done.
Qed.

(** X1: for a name that is not an inherited member of the configuration
    records, a descriptor returned by [getProvider] carries the requested
    name, and its type tells which source won: [cliproxy] exactly for the
    built-in names, whatever the configuration holds under that name;
    [settings] only for a profile key that is no built-in name; [api] only
    for a key of the remote-API map that is no built-in name and whose
    settings profile, if there is one, did not resolve.  (For the twelve
    inherited names the lookups of the code find the inherited member; they
    are outside this statement.) *)
Theorem getProvider_priority (E : Env) (n : string) (p : ResolvedProvider) :
  inheritedMember n = false →
  getProvider E n = Some p →
  name p = n ∧
  (type p = cliproxy ↔ n ∈ CLIPROXY_PROVIDER_LIST) ∧
  (n ∈ CLIPROXY_PROVIDER_LIST → p = resolveCLIProxyProvider n) ∧
  (type p = settings →
   (n ∉ CLIPROXY_PROVIDER_LIST) ∧ n ∈ list_settings (listProviders E) ∧
   resolveSettingsProfile E n = Some p) ∧
  (type p = api →
   (n ∉ CLIPROXY_PROVIDER_LIST) ∧ n ∈ list_api (listProviders E) ∧
   resolveSettingsProfile E n = None).
Proof.
  intros _ [[Hb ->] | [[Hb Hs] | (Hb & Hs & cfg & Hcfg & ->)]]%getProvider_Some.
  - apply isCLIProxyProvider_elem in Hb. repeat split; try done.
  - destruct (resolveSettingsProfile_name E n p Hs) as [Hn Hty].
    apply isCLIProxyProvider_not_elem in Hb.
    assert (n ∈ list_settings (listProviders E)) as Hkey.
    { apply lookupProfile_keys. apply mk_is_Some in Hs.
      apply resolveSettingsProfile_is_Some in Hs as (pc & _ & _ & -> & _). eauto. }
    rewrite Hty. repeat split; try done.
  - apply isCLIProxyProvider_not_elem in Hb.
    assert (n ∈ list_api (listProviders E)) as Hkey.
    { apply lookupApiConfig_keys. eauto. }
    simpl. repeat split; try done.
Qed.

Lemma getProvider_priority_witness :
  type <$> getProvider Examples.collisionEnv "glm" = Some api ∧
  resolveSettingsProfile Examples.collisionEnv "glm" = None.
Proof.
  destruct (getProvider_priority Examples.collisionEnv "glm"
              (resolveApiProvider Examples.collisionEnv "glm" Examples.glmApi)
              eq_refl eq_refl) as (_ & _ & _ & _ & Hapi).
  split; [reflexivity|]. by apply Hapi.
Defined.

Lemma getProvider_None (E : Env) (n : string) :
  getProvider E n = None ↔
  (n ∉ CLIPROXY_PROVIDER_LIST) ∧ (n ∉ list_api (listProviders E)) ∧
  resolveSettingsProfile E n = None.
Proof.
  rewrite <- isCLIProxyProvider_not_elem, <- lookupApiConfig_keys.
  unfold getProvider. destruct (isCLIProxyProvider n).
  { split; [done | by intros [? _]]. }
  destruct (resolveSettingsProfile E n).
  { split; [done | by intros (_ & _ & ?)]. }
  destruct (lookupApiConfig E n).
  - split; [done|]. intros (_ & H & _). destruct H. eauto.
  - split; [|done]. intros _. repeat split; try done; by intros [? ?].
Qed.

Lemma resolveSettingsProfile_Some_key (E : Env) (n : string) (p : ResolvedProvider) :
  resolveSettingsProfile E n = Some p → n ∈ list_settings (listProviders E).
Proof.
  intros Hp. apply lookupProfile_keys. apply mk_is_Some in Hp.
  apply resolveSettingsProfile_is_Some in Hp as (pc & _ & _ & -> & _). eauto.
Qed.

(** X2: among the names that are not inherited members of the
    configuration records, [getProvider] answers not-found exactly for
    those that are no built-in identifier, no key of the remote-API map and
    for which no settings profile resolves; in particular for every such
    name that occurs in none of the three listings of [listProviders]. *)
Theorem getProvider_not_found (E : Env) (n : string) :
  inheritedMember n = false →
  (getProvider E n = None ↔
   (n ∉ CLIPROXY_PROVIDER_LIST) ∧ (n ∉ list_api (listProviders E)) ∧
   resolveSettingsProfile E n = None) ∧
  ((n ∉ list_cliproxy (listProviders E)) →
   (n ∉ list_settings (listProviders E)) →
   (n ∉ list_api (listProviders E)) →
   getProvider E n = None).
Proof.
  intros _. split; [apply getProvider_None|]. intros Hc Hs Ha.
  apply getProvider_None. repeat split; try done.
  destruct (resolveSettingsProfile E n) as [p|] eqn:Hp; [|done].
  destruct Hs. by eapply resolveSettingsProfile_Some_key.
Qed.

(** In [collisionEnv] the name [kimi] is in none of the listings. *)
Lemma getProvider_not_found_witness :
  getProvider Examples.collisionEnv "kimi" = None.
Proof.
  apply (getProvider_not_found Examples.collisionEnv "kimi" eq_refl);
    cbn; unfold CLIPROXY_PROVIDER_LIST; rewrite ?not_elem_of_cons;
    repeat split; try discriminate; apply not_elem_of_nil.
Defined.

Lemma assoc_Some_elem {A : Type} (k : string) (record : list (string * A)) (a : A) :
  assoc k record = Some a → (k, a) ∈ record.
Proof.
  induction record as [|[k' a'] record IH]; simpl; [done|].
  destruct (String.eqb_spec k k') as [->|Hne].
  - intros [= ->]. apply list_elem_of_here.
  - intros H. apply list_elem_of_further. by apply IH.
Qed.

Lemma apiProviders_elem (E : Env) (p : ResolvedProvider) :
  p ∈ apiProviders E ↔
  ∃ ps n apiConfig, loadRouterConfig E ≫= providers = Some ps ∧
                    (n, apiConfig) ∈ ps ∧ p = resolveApiProvider E n apiConfig.
Proof.
  unfold apiProviders. destruct (loadRouterConfig E ≫= providers) as [ps|].
  - rewrite list_elem_of_fmap. split.
    + intros ([n cfg] & -> & Hin). by exists ps, n, cfg.
    + intros (ps' & n & cfg & [= <-] & Hin & ->). by exists (n, cfg).
  - split; [by intros ?%elem_of_nil | by intros (? & ? & ? & ? & _)].
Qed.

Lemma lookupApiConfig_unfold (E : Env) (n : string) :
  lookupApiConfig E n = (loadRouterConfig E ≫= providers) ≫= assoc n.
Proof.
  unfold lookupApiConfig. destruct (loadRouterConfig E) as [cfg|]; [|done].
  simpl. by destruct (providers cfg).
Qed.

(** X3: among the names that are not inherited members of the
    configuration records, those that [getProvider] resolves are exactly the
    names of the descriptors enumerated by [getAllProviders]. *)
Theorem getProvider_resolves_listed (E : Env) (n : string) :
  inheritedMember n = false →
  (is_Some (getProvider E n) ↔ n ∈ name <$> getAllProviders E).
Proof.
  intros _. rewrite list_elem_of_fmap. unfold getAllProviders. split.
  - intros [p Hp]. exists p.
    apply getProvider_Some in Hp
      as [[Hb ->] | [[Hb Hs] | (Hb & Hs & cfg & Hcfg & ->)]].
    + split; [done|]. apply elem_of_app. left.
      apply list_elem_of_fmap. exists n. split; [done|].
      by apply isCLIProxyProvider_elem.
    + destruct (resolveSettingsProfile_name E n p Hs) as [Hn _].
      split; [done|]. apply elem_of_app. right. apply elem_of_app. left.
      apply settingsProviders_elem. by rewrite Hn.
    + split; [done|]. apply elem_of_app. right. apply elem_of_app. right.
      apply apiProviders_elem. rewrite lookupApiConfig_unfold in Hcfg.
      destruct (loadRouterConfig E ≫= providers) as [ps|]; [|done].
      exists ps, n, cfg. split; [done|]. split; [|done].
      by apply assoc_Some_elem.
  - intros (p & -> & Hin).
    destruct (getProvider E (name p)) as [q|] eqn:Hq; [eauto|].
    apply getProvider_None in Hq as (Hb & Ha & Hs). exfalso.
    apply elem_of_app in Hin as [Hin | Hin].
    { apply list_elem_of_fmap in Hin as (k & -> & Hk). by apply Hb. }
    apply elem_of_app in Hin as [Hin | Hin].
    { apply settingsProviders_elem in Hin. congruence. }
    apply apiProviders_elem in Hin as (ps & k & cfg & Hps & Hin & ->).
    apply Ha. unfold listProviders. simpl. rewrite Hps.
    apply list_elem_of_fmap. by exists (k, cfg).
Qed.

(** [glm] resolves in [collisionEnv], and is enumerated. *)
Lemma getProvider_resolves_listed_witness :
  "glm" ∈ name <$> getAllProviders Examples.collisionEnv.
Proof.
  apply (getProvider_resolves_listed Examples.collisionEnv "glm" eq_refl).
  vm_compute. eauto.
Defined.

Lemma settingsProviders_type (E : Env) (p : ResolvedProvider) :
  p ∈ settingsProviders E → type p = settings.
Proof.
  intros Hp%settingsProviders_elem.
  by destruct (resolveSettingsProfile_name E _ p Hp).
Qed.

Lemma omap_resolve_names (E : Env) (l : list string) :
  name <$> omap (resolveSettingsProfile E) l
  = filter (λ n, is_Some (resolveSettingsProfile E n)) l.
Proof.
  induction l as [|k l IH]; [done|]. simpl.
  destruct (resolveSettingsProfile E k) as [p|] eqn:Hp.
  - rewrite filter_cons_True by (by rewrite Hp). simpl.
    destruct (resolveSettingsProfile_name E k p Hp) as [Hn _].
    rewrite Hn. f_equal. exact IH.
  - rewrite filter_cons_False by (rewrite Hp; by intros [? ?]). exact IH.
Qed.

Lemma settingsProviders_names (E : Env) :
  name <$> settingsProviders E
  = filter (λ n, is_Some (resolveSettingsProfile E n)) (list_settings (listProviders E)).
Proof.
  unfold settingsProviders, listProviders. simpl.
  destruct (loadUnifiedConfig E ≫= profiles) as [ps|]; [|done].
  apply omap_resolve_names.
Qed.

Lemma apiProviders_names (E : Env) :
  name <$> apiProviders E = list_api (listProviders E).
Proof.
  unfold apiProviders, listProviders. simpl.
  destruct (loadRouterConfig E ≫= providers) as [ps|]; [|done].
  unfold keys. rewrite <- list_fmap_compose. apply list_fmap_ext.
  by intros i [k cfg] _.
Qed.

Lemma fmap_type_replicate (t : ProviderType) (l : list ResolvedProvider) :
  (∀ p, p ∈ l → type p = t) → type <$> l = replicate (length l) t.
Proof.
  induction l as [|p l IH]; [done|]. intros Hall. simpl.
  rewrite (Hall p) by apply list_elem_of_here. f_equal.
  apply IH. intros q Hq. apply Hall. by apply list_elem_of_further.
Qed.

(** X4: [getAllProviders] lists the sources in blocks, in the order of the
    priority cascade.  Read from the front, the names are the seven
    built-in identifiers in their fixed order, then the keys of the
    credential-profile map whose profile resolves, in the order of the map,
    then every key of the remote-API map in the order of that map; and the
    types are [cliproxy] seven times, then [settings] for the whole second
    block, then [api] for the whole third block. *)
Theorem getAllProviders_in_blocks (E : Env) :
  let resolving :=
    filter (λ n, is_Some (resolveSettingsProfile E n))
           (list_settings (listProviders E)) in
  name <$> getAllProviders E
  = list_cliproxy (listProviders E) ++ resolving ++ list_api (listProviders E) ∧
  type <$> getAllProviders E
  = replicate 7 cliproxy ++ replicate (length resolving) settings
    ++ replicate (length (list_api (listProviders E))) api.
Proof.
  intros resolving. unfold getAllProviders. rewrite !fmap_app. split.
  - rewrite settingsProviders_names, apiProviders_names. done.
  - rewrite (fmap_type_replicate cliproxy cliproxyProviders)
      by apply cliproxyProviders_type.
    rewrite (fmap_type_replicate settings (settingsProviders E))
      by apply settingsProviders_type.
    rewrite (fmap_type_replicate api (apiProviders E))
      by apply apiProviders_type.
    unfold resolving.
    rewrite <- settingsProviders_names, <- apiProviders_names, !length_fmap.
    done.
Qed.

(** X5: [listProviders] bounds what can be resolved: among the names that
    are not inherited members of the configuration records,
    [isSettingsProfile] holds exactly for the names of its settings listing;
    [isCLIProxyProvider] holds exactly for the names of its built-in
    listing; and every descriptor enumerated by [getAllProviders] carries a
    name of the listing that matches its type. *)
Theorem listProviders_covers (E : Env) :
  (∀ n, inheritedMember n = false →
        (isSettingsProfile E n = true ↔ n ∈ list_settings (listProviders E))) ∧
  (∀ n, isCLIProxyProvider n = true ↔ n ∈ list_cliproxy (listProviders E)) ∧
  (∀ p, p ∈ getAllProviders E →
        match type p with
        | cliproxy => name p ∈ list_cliproxy (listProviders E)
        | settings => name p ∈ list_settings (listProviders E)
        | api => name p ∈ list_api (listProviders E)
        end).
Proof.
  split; [|split].
  - intros n _. unfold isSettingsProfile. rewrite bool_decide_eq_true.
    apply lookupProfile_keys.
  - intros n. apply isCLIProxyProvider_elem.
  - intros p Hin. unfold getAllProviders in Hin.
    apply elem_of_app in Hin as [Hin | Hin].
    { apply list_elem_of_fmap in Hin as (k & -> & Hk). done. }
    apply elem_of_app in Hin as [Hin | Hin].
    + rewrite (settingsProviders_type E p Hin).
      apply settingsProviders_elem in Hin.
      by eapply resolveSettingsProfile_Some_key.
    + rewrite (apiProviders_type E p Hin).
      apply apiProviders_elem in Hin as (ps & k & cfg & Hps & Hin & ->).
      unfold listProviders. simpl. rewrite Hps.
      apply list_elem_of_fmap. by exists (k, cfg).
Qed.

End RegistryExtra.

(** ** The adapter on the descriptors of the registry *)

Module AdapterExtra.
Import JS Registry Adapter Transform StringFacts AdapterFacts.

Lemma strip_append_slashes (url t : string) :
  all_slashes t = true →
  strip_trailing_slashes (url +:+ t) = strip_trailing_slashes url.
Proof.
  intros Ht. induction url as [|c url IH].
  - rewrite append_nil. by apply strip_empty_iff.
  - rewrite append_cons. simpl. by rewrite IH.
Qed.

Lemma append_not_empty (s t : string) : t ≠ "" → s +:+ t ≠ "".
Proof. destruct s; [by rewrite append_nil | by rewrite append_cons]. Qed.

Lemma strip_append_kept (s t : string) :
  strip_trailing_slashes t ≠ "" →
  strip_trailing_slashes (s +:+ t) = s +:+ strip_trailing_slashes t.
Proof.
  intros Ht. induction s as [|c s IH]; [by rewrite !append_nil|].
  rewrite !append_cons. simpl. rewrite IH.
  pose proof (append_not_empty s _ Ht) as Hne.
  by destruct (s +:+ strip_trailing_slashes t).
Qed.

Lemma getEndpoint_string (p : ResolvedProvider) (url : string) :
  baseUrl p = Str url →
  getEndpoint p =
    Some (if endsWith (strip_trailing_slashes url) "/v1"
          then strip_trailing_slashes url +:+ "/messages"
          else strip_trailing_slashes url +:+ "/v1/messages").
Proof.
  intros Hurl. unfold getEndpoint. rewrite Hurl, replace_is_strip.
  by destruct (endsWith _ _).
Qed.

(** X6: the endpoint does not depend on the slashes at the end of the base
    URL: a base URL and the same base URL followed by any number of slashes
    give the same endpoint. *)
Theorem getEndpoint_ignores_trailing_slashes
  (p q : ResolvedProvider) (url t : string) :
  baseUrl p = Str url →
  baseUrl q = Str (url +:+ t) →
  all_slashes t = true →
  getEndpoint q = getEndpoint p.
Proof.
  intros Hp Hq Ht.
  rewrite (getEndpoint_string p url Hp), (getEndpoint_string q _ Hq).
  by rewrite (strip_append_slashes url t Ht).
Qed.

Lemma getEndpoint_ignores_trailing_slashes_witness :
  getEndpoint Examples.emptyToken
  = getEndpoint {| name := "local"; type := api; adapter := "anthropic";
                   baseUrl := Str "http://localhost:4000/v1";
                   authToken := Str ""; headers := None |}.
Proof.
  apply (getEndpoint_ignores_trailing_slashes _ _ "http://localhost:4000/v1" "/");
    reflexivity.
Defined.

(** X7: for every string base URL the endpoint exists, ends in
    [/v1/messages] and consists of the base URL without its trailing
    slashes followed by [/messages] or [/v1/messages]; an empty base URL, or
    one made of slashes only, gives the bare path [/v1/messages]. *)
Theorem getEndpoint_ends_in_messages (p : ResolvedProvider) (url : string) :
  baseUrl p = Str url →
  ∃ r, getEndpoint p = Some r ∧
       ends_in r "/v1/messages" ∧
       (∃ path, r = strip_trailing_slashes url +:+ path ∧
                (path = "/messages" ∨ path = "/v1/messages")) ∧
       (all_slashes url = true → r = "/v1/messages").
Proof.
  intros Hurl. rewrite (getEndpoint_string p url Hurl).
  set (b := strip_trailing_slashes url).
  destruct (endsWith b "/v1") eqn:Hend.
  - eexists. split; [done|]. apply endsWith_iff in Hend as [a Ha].
    split; [|split].
    + exists a. by rewrite Ha, append_assoc.
    + exists "/messages". eauto.
    + intros Hall%strip_empty_iff. fold b in Hall. rewrite Hall in Ha.
      by destruct a.
  - eexists. split; [done|]. split; [|split].
    + by exists b.
    + exists "/v1/messages". eauto.
    + intros Hall%strip_empty_iff. fold b in Hall. by rewrite Hall.
Qed.

Lemma getEndpoint_ends_in_messages_witness :
  ∃ r, getEndpoint Examples.withToken = Some r ∧ ends_in r "/v1/messages".
Proof.
  destruct (getEndpoint_ends_in_messages Examples.withToken
              "https://api.z.ai/api/anthropic" eq_refl) as (r & Hr & Hend & _).
  by exists r.
Defined.

Lemma strip_version_suffix (s : string) :
  strip_trailing_slashes (s +:+ "/v1") = s +:+ "/v1".
Proof. by rewrite strip_append_kept. Qed.

(** X8: what a built-in provider is asked with: for every name, the
    endpoint of its descriptor is the local multiplexer address followed by
    [/api/provider/<name>/v1/messages], with the version prefix once, and
    its headers are the JSON content type alone, without [Authorization]. *)
Theorem cliproxy_request_shape (n : string) :
  getEndpoint (resolveCLIProxyProvider n)
  = Some (CLIPROXY_BASE_URL +:+ "/api/provider/" +:+ n +:+ "/v1/messages") ∧
  getHeaders (resolveCLIProxyProvider n)
  = {[ "Content-Type" := "application/json" ]} ∧
  getHeaders (resolveCLIProxyProvider n) !! "Authorization" = None.
Proof.
  split; [|split; reflexivity].
  rewrite (getEndpoint_string (resolveCLIProxyProvider n)
             (CLIPROXY_BASE_URL +:+ "/api/provider/" +:+ n +:+ "/v1") eq_refl).
  assert (CLIPROXY_BASE_URL +:+ "/api/provider/" +:+ n +:+ "/v1"
          = (CLIPROXY_BASE_URL +:+ "/api/provider/" +:+ n) +:+ "/v1") as ->
    by by rewrite !append_assoc.
  rewrite strip_version_suffix.
  assert (endsWith ((CLIPROXY_BASE_URL +:+ "/api/provider/" +:+ n) +:+ "/v1") "/v1"
          = true) as -> by (apply endsWith_iff; by eexists).
  by rewrite !append_assoc.
Qed.

Lemma assoc_set_field_eq (k : string) (v : Value) (fields : list (string * Value)) :
  assoc k (Json.set_field k v fields) = Some v.
Proof.
  induction fields as [|[k' v'] fields IH]; simpl.
  - by rewrite String.eqb_refl.
  - destruct (String.eqb k k') eqn:Hk; simpl; [by rewrite String.eqb_refl|].
    by rewrite Hk.
Qed.

Lemma assoc_set_field_ne (k k0 : string) (v : Value) (fields : list (string * Value)) :
  k0 ≠ k → assoc k0 (Json.set_field k v fields) = assoc k0 fields.
Proof.
  intros Hne. induction fields as [|[k' v'] fields IH]; simpl.
  - by destruct (String.eqb_spec k0 k).
  - destruct (String.eqb_spec k k') as [->|Hk]; simpl.
    + by destruct (String.eqb_spec k0 k').
    + by rewrite IH.
Qed.

Lemma set_field_twice (k : string) (v v' : Value) (fields : list (string * Value)) :
  Json.set_field k v' (Json.set_field k v fields) = Json.set_field k v' fields.
Proof.
  induction fields as [|[k0 v0] fields IH]; simpl.
  - by rewrite String.eqb_refl.
  - destruct (String.eqb k k0) eqn:Hk; simpl.
    + by rewrite String.eqb_refl.
    + by rewrite Hk, IH.
Qed.

Lemma keys_set_field (k : string) (v : Value) (fields : list (string * Value)) :
  keys (Json.set_field k v fields)
  = match assoc k fields with
    | Some _ => keys fields
    | None => keys fields ++ [k]
    end.
Proof.
  induction fields as [|[k0 v0] fields IH]; simpl; [done|].
  destruct (String.eqb_spec k k0) as [->|Hk]; simpl; [done|].
  unfold keys in *. rewrite IH. by destruct (assoc k fields).
Qed.

(** X9: [transformRequest] changes the model and nothing else: the result
    reads [targetModel] under [model], every other field reads as before,
    the fields keep their order (a missing [model] is added last), the
    provider plays no part, and of two transformations the later one
    decides. *)
Theorem transformRequest_only_model
  (req : list (string * Value)) (m m' : string) (p p' : ResolvedProvider) :
  assoc "model" (transformRequest req m p) = Some (Str m) ∧
  (∀ k, k ≠ "model" → assoc k (transformRequest req m p) = assoc k req) ∧
  keys (transformRequest req m p)
  = match assoc "model" req with
    | Some _ => keys req
    | None => keys req ++ ["model"]
    end ∧
  transformRequest req m p = transformRequest req m p' ∧
  transformRequest (transformRequest req m p) m' p' = transformRequest req m' p'.
Proof.
  unfold transformRequest. split; [apply assoc_set_field_eq|].
  split; [intros k Hk; by apply assoc_set_field_ne|].
  split; [apply keys_set_field|]. split; [done|]. apply set_field_twice.
Qed.



End AdapterExtra.

(** ** Health monitoring: the two caches *)

Module HealthExtra.
Import JS Registry Health HealthInvariant HealthFacts.

Section Monitor.
Context {Ext PortProcess : Type} `{C : Collaborators Ext PortProcess}.

Ltac run :=
  unfold checkProviderHealth, cacheLookup, liveCheck,
    checkCLIProxyProviderHealth, checkApiProviderHealth, portCacheExpired,
    try_catch, bind, ret, Date_now, new_Date, await_getPortProcess,
    call_getAuthStatus, await_fetch, get_healthCache, healthCache_set,
    get_cliproxyPortHealthy, get_cliproxyPortCheckedAt,
    set_cliproxyPortHealthy, set_cliproxyPortCheckedAt, set_ext, log in *;
  simpl in *.

(** The port cache after a multiplexer check: it is filled; without a probe
    it is the one from before, with a probe its time stamp is the clock
    reading taken right after the probe. *)
Lemma checkCLIProxyProviderHealth_port_cache
  (p : ResolvedProvider) (w : World Ext PortProcess) :
  ∃ r w' b checked,
    checkCLIProxyProviderHealth p w = (Returned r, w') ∧
    cliproxyPortHealthy w' = Some b ∧
    cliproxyPortCheckedAt w' = Some checked ∧
    ((∃ auth, trace w' = trace w ++ [AuthQuery (name p) auth]) →
     cliproxyPortHealthy w' = cliproxyPortHealthy w ∧
     cliproxyPortCheckedAt w' = cliproxyPortCheckedAt w).
Proof.
  destruct w as [e tr hc ph pc]. run.
  destruct ph as [b|], pc as [checked|]; simpl;
    try destruct (_ >? CACHE_TTL) eqn:Hexpired; simpl.
  all: try (destruct (match (getPortProcess _ _).1 with
                      | Some proc => isCLIProxyProcess proc
                      | None => false
                      end) eqn:Hport; simpl).
  all: try destruct b; simpl.
  all: try (destruct (authenticated _) eqn:Hauth; simpl).
  all: eexists; eexists; eexists; eexists.
  all: split; [reflexivity|]; simpl.
  all: split; [reflexivity|]; split; [reflexivity|].
  all: try done.
  all: intros [auth Heq]; rewrite <- app_assoc in Heq;
    apply app_inv_head in Heq; discriminate Heq.
Qed.

(** The two ways through [checkProviderHealth]: a hit on a fresh entry, or
    a live check from a world that differs from the initial one in the
    clock at most. *)
Lemma checkProviderHealth_cases (p : ResolvedProvider) (w : World Ext PortProcess) :
  (∃ cached,
     healthCache w !! name p = Some cached ∧
     (clock (ext w)).1 - checkedAt cached < CACHE_TTL ∧
     checkProviderHealth p w = (Returned cached, set_ext (clock (ext w)).2 w)) ∨
  (∃ w0 r w1,
     (∀ cached, healthCache w !! name p = Some cached →
                CACHE_TTL ≤ (clock (ext w)).1 - checkedAt cached) ∧
     trace w0 = trace w ∧ healthCache w0 = healthCache w ∧
     cliproxyPortHealthy w0 = cliproxyPortHealthy w ∧
     cliproxyPortCheckedAt w0 = cliproxyPortCheckedAt w ∧
     liveCheck p w0 = (Returned r, w1) ∧
     checkProviderHealth p w =
       (Returned r,
        mkWorld (ext w1) (trace w1) (<[name p := r]> (healthCache w1))
                (cliproxyPortHealthy w1) (cliproxyPortCheckedAt w1))).
Proof.
  destruct (healthCache w !! name p) as [cached|] eqn:Hc.
  - destruct (Z_lt_ge_dec ((clock (ext w)).1 - checkedAt cached) CACHE_TTL)
      as [Hfresh | Hstale].
    + left. exists cached. split; [done|]. split; [done|].
      by apply checkProviderHealth_hit.
    + right.
      destruct (liveCheck_run p (set_ext (clock (ext w)).2 w))
        as (r & w1 & _ & Hlive & _).
      exists (set_ext (clock (ext w)).2 w), r, w1.
      split; [intros ? [= <-]; lia|]. repeat split; try done.
      eapply checkProviderHealth_miss; [|done].
      apply (cacheLookup_stale p w cached Hc). lia.
  - right. destruct (liveCheck_run p w) as (r & w1 & _ & Hlive & _).
    exists w, r, w1. split; [done|]. repeat split; try done.
    eapply checkProviderHealth_miss; [|done]. by apply cacheLookup_absent.
Qed.

(** X11: whatever a check returns is what the cache holds for the provider
    afterwards, healthy or not; and a further check of the same provider
    that reads the clock less than 30 seconds after the time stamp of that
    record returns the same record and changes nothing but the clock. *)
Theorem checkProviderHealth_caches_result
  (p : ResolvedProvider) (w : World Ext PortProcess) :
  ∃ r w1,
    checkProviderHealth p w = (Returned r, w1) ∧
    healthCache w1 !! name p = Some r ∧
    ((clock (ext w1)).1 - checkedAt r < 30000 →
     checkProviderHealth p w1 = (Returned r, set_ext (clock (ext w1)).2 w1)).
Proof.
  assert (∃ r w1, checkProviderHealth p w = (Returned r, w1) ∧
                  healthCache w1 !! name p = Some r) as (r & w1 & Hrun & Hc).
  { destruct (checkProviderHealth_cases p w)
      as [(cached & Hc & _ & Hrun) | (w0 & r & w1 & _ & _ & _ & _ & _ & _ & Hrun)].
    - by exists cached, (set_ext (clock (ext w)).2 w).
    - eexists _, _. split; [exact Hrun|]. simpl. apply lookup_insert_eq. }
  exists r, w1. split; [done|]. split; [done|].
  intros Hage. by apply checkProviderHealth_hit.
Qed.

Lemma liveCheck_well_formed (p : ResolvedProvider) (w : World Ext PortProcess) :
  ∀ r w', liveCheck p w = (Returned r, w') →
          healthCache w' = healthCache w ∧ recordWellFormed (name p) r.
Proof.
  intros r w'. unfold liveCheck, recordWellFormed.
  destruct (decide (type p = cliproxy)).
  - destruct (checkCLIProxyProviderHealth_run p w)
      as (r0 & w0 & probes & auth & portOk & Hrun & _ & Hc & _ & _ & _ & Hp & Hh & He).
    rewrite Hrun. intros [= <- <-]. split; [done|]. split; [done|].
    rewrite Hh, He. destruct portOk, (authenticated auth); simpl;
      split; try done; by intros [? ?].
  - destruct (checkApiProviderHealth_run p w)
      as (r0 & w0 & Hrun & _ & Hc & Hp & Hans).
    rewrite Hrun. intros [= <- <-]. split; [done|]. split; [done|].
    destruct (fetch _ _).1 as [response | thrown]; destruct Hans as [Hh He].
    + rewrite Hh, He. destruct (ok response); split; try done; by intros [? ?].
    + rewrite Hh, He. split; eauto.
Qed.

(** X12: a check touches one cache entry only, the one of the provider
    checked; and it keeps the cache well formed: if every record sits under
    the name of its provider and has an error message exactly when it is
    unhealthy, then the same holds afterwards and for the record returned. *)
Theorem checkProviderHealth_keeps_cache
  (p : ResolvedProvider) (w : World Ext PortProcess) :
  ∃ r w1,
    checkProviderHealth p w = (Returned r, w1) ∧
    (∀ n, n ≠ name p → healthCache w1 !! n = healthCache w !! n) ∧
    (cacheWellFormed (healthCache w) →
     cacheWellFormed (healthCache w1) ∧ recordWellFormed (name p) r).
Proof.
  destruct (checkProviderHealth_cases p w)
    as [(cached & Hc & _ & Hrun)
       | (w0 & r & w1 & _ & _ & Hc0 & _ & _ & Hlive & Hrun)].
  - exists cached, (set_ext (clock (ext w)).2 w). split; [done|].
    split; [done|]. intros Hwf. split; [done|]. by apply Hwf.
  - destruct (liveCheck_well_formed p w0 r w1 Hlive) as [Hc1 Hr].
    eexists _, _. split; [exact Hrun|]. simpl. rewrite Hc1, Hc0. split.
    + intros n Hn. by rewrite lookup_insert_ne.
    + intros Hwf. split; [|done]. intros n r' Hn.
      destruct (decide (n = name p)) as [->|Hne].
      * rewrite lookup_insert_eq in Hn. by injection Hn as <-.
      * rewrite lookup_insert_ne in Hn by done. by apply Hwf.
Qed.

(** X13: the two kinds of live check do not mix.  A provider of type
    [cliproxy] is checked without any HTTP request; a provider of any other
    type is checked with exactly one HTTP request, the GET on its [/models]
    URL, without probing the port or asking the token manager and without
    touching the shared port status. *)
Theorem liveCheck_kinds (p : ResolvedProvider) (w : World Ext PortProcess) :
  (type p = cliproxy →
   ∃ r w1 events,
     liveCheck p w = (Returned r, w1) ∧ trace w1 = trace w ++ events ∧
     Forall (λ ev, isFetch ev = false) events ∧
     Exists (λ ev, isAuthQuery ev = true) events) ∧
  (type p ≠ cliproxy →
   ∃ r w1 answer,
     liveCheck p w = (Returned r, w1) ∧
     trace w1 = trace w ++ [Fetch (healthRequest p) answer] ∧
     cliproxyPortHealthy w1 = cliproxyPortHealthy w ∧
     cliproxyPortCheckedAt w1 = cliproxyPortCheckedAt w).
Proof.
  unfold liveCheck. split; intros Hty; destruct (decide (type p = cliproxy));
    try done.
  - destruct (checkCLIProxyProviderHealth_run p w)
      as (r & w1 & probes & auth & portOk & Hrun & Htr & _ & _ & Hprobes & _).
    exists r, w1, (probes ++ [AuthQuery (name p) auth]).
    split; [done|]. split; [done|]. split.
    + apply Forall_app. split; [|by repeat constructor].
      destruct Hprobes as [(-> & _) | (ans & -> & _)]; by repeat constructor.
    + apply Exists_app. right. by constructor.
  - destruct w as [e tr hc ph pc]. run.
    destruct (fetch _ _).1 as [response | thrown] eqn:Hfetch; simpl.
    + destruct (ok response); eexists _, _, _; (split; [reflexivity|]);
        simpl; by rewrite ?Hfetch.
    + eexists _, _, _; (split; [reflexivity|]); simpl; by rewrite ?Hfetch.
Qed.

(** X14: invalidating one provider by a non-empty name removes the entry
    of that name and nothing else: the other entries, the shared port
    status and the trace stay as they are.  The next check of a provider of
    that name runs the live check, with input or output, and caches its
    record. *)
Theorem invalidateHealthCache_named (n : string) (w : World Ext PortProcess) :
  n ≠ "" →
  ∃ w1,
    invalidateHealthCache (Some n) w = (Returned tt, w1) ∧
    healthCache w1 !! n = None ∧
    (∀ m, m ≠ n → healthCache w1 !! m = healthCache w !! m) ∧
    cliproxyPortHealthy w1 = cliproxyPortHealthy w ∧
    cliproxyPortCheckedAt w1 = cliproxyPortCheckedAt w ∧
    trace w1 = trace w ∧
    (∀ p, name p = n →
       ∃ r w2 events,
         checkProviderHealth p w1 = (Returned r, w2) ∧
         trace w2 = trace w ++ events ∧ events ≠ [] ∧
         healthCache w2 !! n = Some r).
Proof.
  intros Hn. unfold invalidateHealthCache.
  destruct (String.eqb_spec n "") as [|_]; [done|]. simpl.
  eexists. split; [reflexivity|]. simpl.
  split; [apply lookup_delete_eq|].
  split; [intros m Hm; by apply lookup_delete_ne|].
  split; [done|]. split; [done|]. split; [done|].
  intros p <-.
  set (w1 := mkWorld (ext w) (trace w) (delete (name p) (healthCache w))
                     (cliproxyPortHealthy w) (cliproxyPortCheckedAt w)).
  destruct (checkProviderHealth_cases p w1)
    as [(cached & Hc & _) | (w0 & r & w2 & _ & Htr & _ & _ & _ & Hlive & Hrun)].
  { simpl in Hc. by rewrite lookup_delete_eq in Hc. }
  destruct (liveCheck_run p w0) as (r' & w2' & events & Hlive' & Hev & Hne & _).
  rewrite Hlive in Hlive'. injection Hlive' as <- <-.
  exists r. eexists. exists events. split; [exact Hrun|]. simpl.
  rewrite Hev, Htr. split; [done|]. split; [done|]. apply lookup_insert_eq.
Qed.

(** X15: invalidating without a name, and also with the empty string as
    name, empties the cache and forgets the shared port status; the next
    check of a built-in provider then probes the port before it asks for
    the auth status. *)
Theorem invalidateHealthCache_all (w : World Ext PortProcess) :
  let cleared := mkWorld (ext w) (trace w) ∅ None None in
  invalidateHealthCache None w = (Returned tt, cleared) ∧
  invalidateHealthCache (Some "") w = (Returned tt, cleared) ∧
  (∀ p, type p = cliproxy →
     ∃ r w2 answer auth,
       checkProviderHealth p cleared = (Returned r, w2) ∧
       trace w2 = trace w ++ [PortProbe CLIPROXY_DEFAULT_PORT answer;
                              AuthQuery (name p) auth]).
Proof.
  intros cleared. split; [done|]. split; [done|]. intros p Hty.
  destruct (checkProviderHealth_cases p cleared)
    as [(cached & Hc & _)
       | (w0 & r & w2 & _ & Htr & _ & Hph & _ & Hlive & Hrun)]; [done|].
  unfold liveCheck in Hlive. destruct (decide (type p = cliproxy)); [|done].
  destruct (checkCLIProxyProviderHealth_run p w0)
    as (r' & w2' & probes & auth & portOk & Hrun' & Hev & _ & _ & Hprobe & Hwhen & _).
  rewrite Hlive in Hrun'. injection Hrun' as <- <-.
  destruct Hprobe as [(_ & Hcached & _) | (answer & -> & _)].
  { rewrite Hph in Hcached. done. }
  exists r. eexists. exists answer, auth. split; [exact Hrun|]. simpl.
  by rewrite Hev, Htr.
Qed.

(** X16: the port status is shared by all built-in providers.  After the
    check of one of them the status and its time stamp are recorded; the
    check of any other one that reads the clock at most 30 seconds after
    that time stamp does not probe the port: it asks for the auth status
    only, judges with the recorded port status and leaves it as it is. *)
Theorem port_status_shared (p q : ResolvedProvider) (w : World Ext PortProcess) :
  ∃ r w1 b checked,
    checkCLIProxyProviderHealth p w = (Returned r, w1) ∧
    cliproxyPortHealthy w1 = Some b ∧
    cliproxyPortCheckedAt w1 = Some checked ∧
    ((clock (clock (ext w1)).2).1 - checked ≤ 30000 →
     ∃ r2 w2 auth,
       checkCLIProxyProviderHealth q w1 = (Returned r2, w2) ∧
       trace w2 = trace w1 ++ [AuthQuery (name q) auth] ∧
       healthy r2 = b && authenticated auth ∧
       cliproxyPortHealthy w2 = Some b ∧
       cliproxyPortCheckedAt w2 = Some checked).
Proof.
  destruct (checkCLIProxyProviderHealth_port_cache p w)
    as (r & w1 & b & checked & Hrun & Hb & Hchecked & _).
  exists r, w1, b, checked. split; [done|]. split; [done|]. split; [done|].
  intros Hage.
  destruct (checkCLIProxyProviderHealth_run q w1)
    as (r2 & w2 & probes & auth & portOk & Hrun2 & Htr & _ & Hok & Hprobe
        & Hwhen & _ & Hhealthy & _).
  assert (probes = []) as ->.
  { apply Hwhen. exists b, checked. done. }
  destruct Hprobe as [(_ & Hsame & _) | (? & ? & _)]; [|done].
  rewrite Hb in Hsame. injection Hsame as <-.
  destruct (checkCLIProxyProviderHealth_port_cache q w1)
    as (r2' & w2' & b' & checked' & Hrun2' & _ & _ & Hkeep).
  rewrite Hrun2 in Hrun2'. injection Hrun2' as <- <-.
  destruct Hkeep as [Hkb Hkc]; [by exists auth|].
  exists r2, w2, auth. split; [done|]. split; [done|]. split; [done|].
  by rewrite Hkb, Hkc.
Qed.

End Monitor.

(** The cached verdict of [glm] is invalidated by name. *)
Lemma invalidateHealthCache_named_witness :
  ∃ w1,
    invalidateHealthCache (Some "glm")
      (Examples.cachedWorld Examples.upstreamFailing 999000) = (Returned tt, w1) ∧
    healthCache w1 !! "glm" = None.
Proof.
  destruct (invalidateHealthCache_named "glm"
              (Examples.cachedWorld Examples.upstreamFailing 999000))
    as (w1 & Hrun & Hgone & _); [discriminate|].
  by exists w1.
Defined.

End HealthExtra.

(** ** Configuration writer: what reaches the disk *)

Module ConfigExtra.
Import JS ConfigWriter ConfigEditor FSFacts.

Section Writer.
Context {Doc Node : Type} `{Ed : YamlEditor Doc Node}.
Variable configPath : string.

Lemma write_frame (data : string) (d : Disk) :
  (∀ path, path ≠ configPath →
     files (write configPath data d) !! path = files d !! path) ∧
  files (write configPath data d) !! configPath = Some (FS.File data) ∧
  writes (write configPath data d) = writes d ++ [(configPath, data)] ∧
  writes (write configPath data d) ≠ writes d.
Proof.
  unfold write, FS.writeFileSync. simpl. split; [|split; [|split]].
  - intros path Hp. apply lookup_insert_ne. congruence.
  - apply lookup_insert_eq.
  - done.
  - intros Heq. apply (f_equal length) in Heq.
    rewrite length_app in Heq. simpl in Heq. lia.
Qed.

(** X18: [deleteRouterProfile] stays on its file: every other path of the
    disk is as before, at most one write is performed and it goes to the
    configuration path; the answer is true exactly when that write took
    place; and when the configuration path is a directory the call throws
    and leaves the disk alone. *)
Theorem deleteRouterProfile_frame (name : string) (d : Disk) :
  let run := deleteRouterProfile configPath name d in
  (∀ path, path ≠ configPath → files run.2 !! path = files d !! path) ∧
  (writes run.2 = writes d ∨
   ∃ data, writes run.2 = writes d ++ [(configPath, data)] ∧
           files run.2 !! configPath = Some (FS.File data)) ∧
  (run.1 = Returned true ↔ writes run.2 ≠ writes d) ∧
  (files d !! configPath = Some FS.Directory →
   run = (Threw (ErrorObject "Error" "EISDIR"), d)).
Proof.
  unfold deleteRouterProfile, FS.existsSync, FS.readFileSync.
  destruct (files d !! configPath) as [[text|]|] eqn:Hfile; simpl.
  - try rewrite bool_decide_eq_true_2 by eauto; simpl.
    destruct (profileMember _ _); simpl; [|repeat split; try done; by left].
    destruct (deleteIn _ _) as [doc|e]; simpl; [|repeat split; try done; by left].
    destruct (toString doc) as [data|e]; simpl; [|repeat split; try done; by left].
    destruct (write_frame data d) as (Hother & Hat & Hlog & Hne).
    split; [done|]. split; [right; by exists data|]. split; [done|done].
  - try rewrite bool_decide_eq_true_2 by eauto; simpl.
    repeat split; try done. by left.
  - try rewrite bool_decide_eq_false_2 by (by intros [? ?]); simpl.
    repeat split; try done. by left.
Qed.

Lemma openDocument_cases (d : Disk) :
  match files d !! configPath with
  | None => openDocument configPath d = Returned (parseDocument "")
  | Some (FS.File text) => openDocument configPath d = Returned (parseDocument text)
  | Some FS.Directory =>
      openDocument configPath d = Threw (ErrorObject "Error" "EISDIR")
  end.
Proof.
  unfold openDocument, FS.existsSync, FS.readFileSync.
  destruct (files d !! configPath) as [[text|]|] eqn:Hfile.
  - by rewrite bool_decide_eq_true_2 by eauto.
  - by rewrite bool_decide_eq_true_2 by eauto.
  - by rewrite bool_decide_eq_false_2 by (by intros [? ?]).
Qed.

Lemma untouched_staysOnFile {A : Type} (ok : A) (e : Thrown) (d : Disk) :
  (files d !! configPath = Some FS.Directory → e = ErrorObject "Error" "EISDIR") →
  staysOnFile configPath d ok (Threw e, d).
Proof.
  intros Hdir. unfold staysOnFile. simpl. split; [done|]. split; [by left|].
  split; [done|]. split; [done|]. intros Hd. by rewrite (Hdir Hd).
Qed.

Lemma print_staysOnFile (doc : Doc) (d : Disk) :
  files d !! configPath ≠ Some FS.Directory →
  staysOnFile configPath d tt (print configPath doc d).
Proof.
  intros Hfile. unfold print.
  destruct (toString doc) as [data|e]; [|by apply untouched_staysOnFile].
  destruct (write_frame data d) as (Hother & Hat & Hlog & Hne).
  unfold staysOnFile. simpl. split; [done|]. split; [right; by exists data|].
  split; [done|]. split; [done|]. done.
Qed.

(** Whatever the edits in memory do, a call that opens the document, edits
    it and prints it stays on the configuration file. *)
Lemma edit_staysOnFile (edit : Doc → Outcome Doc) (d : Disk) :
  staysOnFile configPath d tt
    match andThen (openDocument configPath d) edit with
    | Threw e => (Threw e, d)
    | Returned doc => print configPath doc d
    end.
Proof.
  pose proof (openDocument_cases d) as Hopen.
  destruct (files d !! configPath) as [[text|]|] eqn:Hfile; rewrite Hopen; simpl.
  - destruct (edit _) as [doc|e].
    + apply print_staysOnFile. by rewrite Hfile.
    + apply untouched_staysOnFile. by rewrite Hfile.
  - by apply untouched_staysOnFile.
  - destruct (edit _) as [doc|e].
    + apply print_staysOnFile. by rewrite Hfile.
    + apply untouched_staysOnFile. by rewrite Hfile.
Qed.

(** X19: [saveRouterProfile] and [updateRouterDefaults] stay on the
    configuration file, whatever the document library does with the edits.
    Every other path of the disk is as before; at most one write is
    performed, to the configuration path, after which the file holds the
    written text (the file is created when it was missing); the call returns
    normally exactly when that write took place; a call that throws, in the
    library or on reading [router.profiles], leaves the disk as it was; and
    when the configuration path is a directory the call throws [EISDIR]. *)
Theorem config_edits_on_disk
  (name : string) (profile : Value) (defaults : list (string * Value)) (d : Disk) :
  staysOnFile configPath d tt (saveRouterProfile configPath name profile d) ∧
  staysOnFile configPath d tt (updateRouterDefaults configPath defaults d).
Proof.
  split.
  - apply (edit_staysOnFile (λ doc, withProfile doc name profile)).
  - apply (edit_staysOnFile (λ doc, withDefaults doc defaults)).
Qed.

End Writer.

End ConfigExtra.
